(** * Synthetic data generator: sampler, timing gate and latest-value store

    A shallow embedding of [app.py] (the Streamlit page "Data Generator"):
    the sampler [generate_plausible_values], the timing gate [due], the
    store helpers [open_ws], [write_single_row] and [read_latest], and the
    body of one rerun of the page ([tick]).

    Python's [float] is IEEE-754 binary64.  It is modelled by the rationals
    that binary64 can represent: every arithmetic operation computes the
    exact rational result and rounds it to the nearest representable value,
    ties to even ([Binary64.rnd]).  Infinities and NaN are left out: no
    value of this program comes near the overflow threshold. *)

From Stdlib Require Import ZArith QArith Qround Qpower Qabs.
From Stdlib Require Import Lia Lqa List String Bool Decimal DecimalString.
Import ListNotations.

Local Open Scope Q_scope.

(** ** Binary64 arithmetic on the rationals *)

Module Binary64.

(** Precision and smallest exponent of the format: a positive finite
    binary64 number is [m * 2^e] with [m < 2^53] and [e >= -1074]. *)
Definition prec : Z := 53.
Definition emin : Z := -1074.

Definition pow2 (k : Z) : Q := (2 # 1) ^ k.

(** [Qlog2 x] is the binade of a positive rational: [2^e <= x < 2^(e+1)]. *)
Definition Qlog2 (x : Q) : Z :=
  let e0 := (Z.log2 (Qnum x) - Z.log2 (Zpos (Qden x)))%Z in
  if Qle_bool (pow2 e0) x then e0 else (e0 - 1)%Z.

(** Nearest integer, ties to the even one. *)
Definition round_half_even (x : Q) : Z :=
  let f := Qfloor x in
  match Qcompare (x - inject_Z f) (1 # 2) with
  | Lt => f
  | Gt => (f + 1)%Z
  | Eq => if Z.even f then f else (f + 1)%Z
  end.

(** Exponent of the unit in the last place of a positive rational. *)
Definition cexp (x : Q) : Z := Z.max (Qlog2 x - (prec - 1)) emin.

Definition rnd_pos (x : Q) : Q :=
  inject_Z (round_half_even (x * pow2 (- cexp x))) * pow2 (cexp x).

(** Round to nearest binary64, ties to even. *)
Definition rnd (x : Q) : Q :=
  match Qcompare x 0 with
  | Eq => 0
  | Gt => rnd_pos x
  | Lt => - rnd_pos (- x)
  end.

(** A rational is a float when rounding leaves it alone. *)
Definition is_float (x : Q) : Prop := rnd x == x.

Definition fadd (a b : Q) : Q := rnd (a + b).
Definition fmul (a b : Q) : Q := rnd (a * b).
Definition fsub (a b : Q) : Q := rnd (a - b).
Definition fdiv (a b : Q) : Q := rnd (a / b).

(** A decimal literal of the source denotes the nearest float. *)
Definition lit (q : Q) : Q := rnd q.

End Binary64.

Import Binary64.

(** ** Python and NumPy primitives used by the page *)

Module Py.

Definition Qltb (a b : Q) : bool := negb (Qle_bool b a).

(** [min(a, b)] and [max(a, b)] keep their first argument unless the
    second is strictly smaller (resp. larger). *)
Definition min (a b : Q) : Q := if Qltb b a then b else a.
Definition max (a b : Q) : Q := if Qltb a b then b else a.
Definition max_int (a b : Z) : Z := if (a <? b)%Z then b else a.

(** [int(x)] truncates towards zero. *)
Definition int (x : Q) : Z := if Qle_bool 0 x then Qfloor x else Qceiling x.

(** [round(x, ndigits)] on a float: the exact value is rounded half-even
    to [ndigits] decimals and the decimal is read back as a float. *)
Definition round (x : Q) (ndigits : nat) : Q :=
  let p := inject_Z (10 ^ Z.of_nat ndigits) in
  rnd (inject_Z (round_half_even (x * p)) / p).

End Py.

Module Np.

Definition maximum (a b : Q) : Q := if Qle_bool b a then a else b.
Definition minimum (a b : Q) : Q := if Qle_bool a b then a else b.
Definition clip (a a_min a_max : Q) : Q := minimum (maximum a a_min) a_max.

End Np.

(** [np.random.Generator]: the two draws the sampler makes, each returning
    the drawn float and the advanced generator. *)
Class Generator (G : Type) : Type := {
  lognormal : Q -> Q -> G -> Q * G;
  uniform : Q -> Q -> G -> Q * G
}.

(** What NumPy documents for [uniform(low, high)]: a float between the
    bounds (the upper bound may be hit through rounding). *)
Definition uniform_in_range {G : Type} `{Generator G} (low high : Q) : Prop :=
  forall g : G,
    is_float (fst (uniform low high g)) /\
    low <= fst (uniform low high g) <= high.

Definition lognormal_is_float {G : Type} `{Generator G} : Prop :=
  forall (mean sigma : Q) (g : G), is_float (fst (lognormal mean sigma g)).

(** ** The sampler *)

Definition INTERVAL_SECONDS : Z := 30.

(** The dict returned by [generate_plausible_values]. *)
Record record : Type := {
  timestamp_utc : string;
  current_assets : Q;
  current_liabilities : Q;
  inventory : Q
}.

Section Sampler.

Context {G : Type} `{Generator G}.

(** [stamp] is [datetime.now(timezone.utc).isoformat(timespec="seconds")]. *)
Definition generate_plausible_values (rng : G) (stamp : string) : record * G :=
  let '(ca, rng) := lognormal 11 (lit (35 # 100)) rng in
  let ca := Np.clip ca 50000 250000 in
  let '(inv_prop, rng) := uniform (lit (10 # 100)) (lit (60 # 100)) rng in
  let inv := fmul inv_prop ca in
  let '(cl_prop, rng) := uniform (lit (30 # 100)) (lit (110 # 100)) rng in
  let cl := fmul cl_prop ca in
  let inv := Py.min inv ca in
  let cl := Py.max cl 1 in
  ({| timestamp_utc := stamp;
      current_assets := Py.round ca 2;
      current_liabilities := Py.round cl 2;
      inventory := Py.round inv 2 |}, rng).

(** The local variables of [generate_plausible_values] before the two
    final clamps, named so that statements can speak about them. *)
Definition sampled_ca (rng : G) : Q :=
  Np.clip (fst (lognormal 11 (lit (35 # 100)) rng)) 50000 250000.

Definition sampled_inv_prop (rng : G) : Q :=
  fst (uniform (lit (10 # 100)) (lit (60 # 100))
         (snd (lognormal 11 (lit (35 # 100)) rng))).

Definition sampled_cl_prop (rng : G) : Q :=
  fst (uniform (lit (30 # 100)) (lit (110 # 100))
         (snd (uniform (lit (10 # 100)) (lit (60 # 100))
                 (snd (lognormal 11 (lit (35 # 100)) rng))))).

Definition uncapped_inv (rng : G) : Q := fmul (sampled_inv_prop rng) (sampled_ca rng).
Definition unfloored_cl (rng : G) : Q := fmul (sampled_cl_prop rng) (sampled_ca rng).

End Sampler.

(** A float written with at most two digits after the decimal point: the
    float that the decimal [n / 100] denotes. *)
Definition two_decimals (x : Q) : Prop :=
  exists n : Z, x == lit (inject_Z n / 100).

(** ** Two generators for examples *)

(** A scripted generator replays recorded draws, whatever the bounds asked. *)
Module Tape.

Definition t : Type := list Q.
Definition next (_ _ : Q) (g : t) : Q * t := (hd 0 g, tl g).

#[global] Instance generator : Generator t := Build_Generator t next next.

End Tape.

(** A linear congruential bit generator with NumPy's recipe for [uniform]:
    [low + (high - low) * next_double].  The log-normal draw needs an
    exponential, which this model has not; a stand-in spreads the draws
    over an interval wider than the clip. *)
Module Lcg.

Definition t : Type := Z.
Definition step (g : t) : t := ((6364136223846793005 * g + 1442695040888963407) mod 2 ^ 64)%Z.
Definition next_double (g : t) : Q := inject_Z (step g / 2 ^ 11) * pow2 (-53).

Definition uniform (low high : Q) (g : t) : Q * t :=
  (fadd low (fmul (fsub high low) (next_double g)), step g).

Definition lognormal (_ _ : Q) (g : t) : Q * t :=
  (fmul 300000 (next_double g), step g).

#[global] Instance generator : Generator t := Build_Generator t lognormal uniform.

End Lcg.

(** ** The spreadsheet service *)

(** A cell holds nothing, a text or a number.  A grid is the list of its
    rows from row 1 and each row the list of its cells from column A; what
    lies beyond the stored cells is blank. *)
Inductive cell : Type :=
| Blank
| Text (s : string)
| Number (x : Q).

Definition grid : Type := list (list cell).

(** The remote spreadsheet: whether it can be reached, and its worksheets
    by title. *)
Record service : Type := {
  reachable : bool;
  sheets : list (string * grid)
}.

(** [st.secrets]: only the optional worksheet name matters here. *)
Record secrets : Type := { gsheet_worksheet : option string }.

(** [st.session_state]. *)
Record session_state : Type := { last_generate_ts : Q }.

Record world : Type := {
  config : secrets;
  session : session_state;
  store : service
}.

Inductive exn : Type :=
| TransportError
| APIError
| WorksheetNotFound
| ValueError
| KeyError
| TypeError
| StreamlitAPIException.

Inductive outcome (A : Type) : Type :=
| Returns (a : A)
| Raises (e : exn).

Arguments Returns {A} a.
Arguments Raises {A} e.

(** Statements of the page: they read and change the world and either
    return or raise. *)
Definition io (A : Type) : Type := world -> outcome A * world.

Definition ret {A : Type} (a : A) : io A := fun w => (Returns a, w).
Definition raise {A : Type} (e : exn) : io A := fun w => (Raises e, w).

Definition bind {A B : Type} (m : io A) (k : A -> io B) : io B :=
  fun w =>
    match m w with
    | (Returns a, w') => k a w'
    | (Raises e, w') => (Raises e, w')
    end.

(** [try: m except: handler]. *)
Definition catch {A : Type} (m : io A) (handler : exn -> io A) : io A :=
  fun w =>
    match m w with
    | (Returns a, w') => (Returns a, w')
    | (Raises e, w') => handler e w'
    end.

Definition lift {A : Type} (o : outcome A) : io A := fun w => (o, w).

Notation "x <- m ;; k" := (bind m (fun x => k))
  (at level 61, m at next level, right associativity).
Notation "m ;;; k" := (bind m (fun _ => k))
  (at level 61, right associativity).

(** The configured worksheet title and, when it exists, its grid. *)
Definition sheet_title (w : world) : string :=
  match gsheet_worksheet (config w) with
  | Some n => n
  | None => "latest"%string
  end.

Definition with_sheets (w : world) (s : list (string * grid)) : world :=
  {| config := config w; session := session w;
     store := {| reachable := reachable (store w); sheets := s |} |}.

Definition with_last (w : world) (ts : Q) : world :=
  {| config := config w; session := {| last_generate_ts := ts |}; store := store w |}.

(** One call to the service.  Without a route to the service the call
    fails in the transport, before there is any answer, with google.auth's
    [TransportError]; [APIError] is gspread's exception for an error the
    service answers with. *)
Definition api {A : Type}
    (f : list (string * grid) -> outcome A * list (string * grid)) : io A :=
  fun w =>
    if reachable (store w)
    then let (r, s) := f (sheets (store w)) in (r, with_sheets w s)
    else (Raises TransportError, w).

Fixpoint find_sheet (title : string) (s : list (string * grid)) : option grid :=
  match s with
  | [] => None
  | (t, g) :: s' => if String.eqb t title then Some g else find_sheet title s'
  end.

Fixpoint put_sheet (title : string) (g : grid) (s : list (string * grid))
    : list (string * grid) :=
  match s with
  | [] => [(title, g)]
  | (t, g0) :: s' =>
      if String.eqb t title then (t, g) :: s' else (t, g0) :: put_sheet title g s'
  end.

(** Apply [f] to element [n] of a list, padding with [d] up to it. *)
Fixpoint write_at {A : Type} (d : A) (n : nat) (f : A -> A) (l : list A) : list A :=
  match n, l with
  | O, [] => [f d]
  | O, x :: l' => f x :: l'
  | S n', [] => d :: write_at d n' f []
  | S n', x :: l' => x :: write_at d n' f l'
  end.

Definition overwrite_prefix (values row : list cell) : list cell :=
  (values ++ skipn (List.length values) row)%list.

(** Write the rows of [values] from row index [top] down, from column A. *)
Fixpoint write_rows (top : nat) (values : list (list cell)) (g : grid) : grid :=
  match values with
  | [] => g
  | v :: vs => write_rows (S top) vs (write_at [] top (overwrite_prefix v) g)
  end.

Definition populated (c : cell) : bool :=
  match c with
  | Blank => false
  | Text s => negb (String.eqb s "")
  | Number _ => true
  end.

(** Drop the elements after the last one that [keep] accepts. *)
Fixpoint drop_trailing {A : Type} (keep : A -> bool) (l : list A) : list A :=
  match l with
  | [] => []
  | x :: l' =>
      match drop_trailing keep l' with
      | [] => if keep x then [x] else []
      | t => x :: t
      end
  end.

Definition nonempty {A : Type} (l : list A) : bool :=
  match l with [] => false | _ => true end.

(** Pad every row with empty texts to the length of the longest. *)
Definition fill_gaps (values : list (list string)) : list (list string) :=
  let width := list_max (map (@List.length string) values) in
  map (fun row => (row ++ repeat ""%string (width - List.length row))%list) values.

(** How far a row is populated within columns A to D: the position of its
    last populated cell, which is the number of columns the service sends
    for it.  Blank cells before that one are counted. *)
Definition populated_width (row : list cell) : nat :=
  List.length (drop_trailing populated (firstn 4 row)).

(** How many of the cells of a row in columns A to D are populated. *)
Definition populated_count (row : list cell) : nat :=
  List.length (filter populated (firstn 4 row)).

Definition current_grid (w : world) : option grid :=
  find_sheet (sheet_title w) (sheets (store w)).

(** The ranges the page names, all from column A and four columns wide. *)
Inductive a1_range : Type := A1_D1 | A2_D2 | A1_D2.

Definition range_top (r : a1_range) : nat :=
  match r with A1_D1 => 0 | A2_D2 => 1 | A1_D2 => 0 end%nat.

Definition range_height (r : a1_range) : nat :=
  match r with A1_D1 => 1 | A2_D2 => 1 | A1_D2 => 2 end%nat.

Definition range_width (r : a1_range) : nat := 4%nat.

(** pandas' frame: column labels and rows of values. *)
Record DataFrame : Type := {
  columns : list string;
  rows : list (list string)
}.

(** [pd.DataFrame(data, columns=...)] raises when a row and the labels
    differ in length. *)
Definition mk_frame (data : list (list string)) (labels : list string)
    : outcome DataFrame :=
  if forallb (fun r => Nat.eqb (List.length r) (List.length labels)) data
  then Returns {| columns := labels; rows := data |}
  else Raises ValueError.

Definition empty (df : DataFrame) : bool :=
  negb (nonempty (rows df)) || negb (nonempty (columns df)).

(** [df.iloc[0]]: the first row, labelled. *)
Definition iloc0 (df : DataFrame) : list (string * string) :=
  combine (columns df) (hd [] (rows df)).

(** [row[label]]: every value under that label; [KeyError] without one. *)
Definition getitem (label : string) (row : list (string * string))
    : outcome (list string) :=
  match filter (fun p => String.eqb (fst p) label) row with
  | [] => Raises KeyError
  | vs => Returns (map snd vs)
  end.

Definition HEADER : list string :=
  ["timestamp_utc"; "current_assets"; "current_liabilities"; "inventory"]%string.

(** The values [write_single_row] puts in row 2: the timestamp as a text,
    the three amounts as numbers. *)
Definition snapshot_cells (rec : record) : list cell :=
  [Text (timestamp_utc rec);
   Number (current_assets rec);
   Number (current_liabilities rec);
   Number (inventory rec)].

(** A grid after the header and a snapshot were written over it, and the
    grid of a worksheet that [open_ws] has just created. *)
Definition overwritten (g : grid) (rec : record) : grid :=
  write_rows 1 [snapshot_cells rec] (write_rows 0 [map Text HEADER] g).

Definition new_sheet : grid :=
  write_rows 0 [map Text HEADER] (repeat (repeat Blank 6) 10).

(** A world whose service answers and holds the worksheet with grid [g]. *)
Definition serves (w : world) (g : grid) : Prop :=
  reachable (store w) = true /\ current_grid w = Some g.

(** The grid [open_ws] hands to its caller: the worksheet's, or that of
    the worksheet it creates. *)
Definition opened_grid (w : world) : grid :=
  match current_grid w with
  | Some g => g
  | None => new_sheet
  end.

(** A statement that leaves the world as it found it. *)
Definition pure_io {A : Type} (m : io A) : Prop := forall w, snd (m w) = w.

(** The cell at row index [r] and column index [c] of a grid, blank beyond
    the stored cells. *)
Definition cell_at (g : grid) (r c : nat) : cell := nth c (nth r g []) Blank.

(** The world with [g] as the grid of the configured worksheet. *)
Definition stored (w : world) (g : grid) : world :=
  with_sheets w (put_sheet (sheet_title w) g (sheets (store w))).

(** Lines 78 and 79 of the page: a session without the key
    [last_generate_ts] gets it at [0.0], a session that has it keeps it. *)
Definition init_session (s : option session_state) : session_state :=
  match s with
  | Some s' => s'
  | None => {| last_generate_ts := 0 |}
  end.

Definition due_at (now last : Q) : bool :=
  Qle_bool (inject_Z INTERVAL_SECONDS) (fsub now last).

(** What one rerun shows. *)
Inductive panel : Type :=
| Metrics (ca cl inv : Q) (last_updated : string)
| Info.

Record view : Type := {
  latest_panel : panel;
  remaining : Z;
  progress : Q
}.

(** What one rerun reads from outside: the button, the two clock readings
    ([time.time()] at the top and at the bottom), the timestamp of
    [datetime.now] and the fresh generator of [np.random.default_rng()]. *)
Record inputs (G : Type) : Type := {
  manual : bool;
  now : Q;
  rng : G;
  stamp : string;
  later : Q
}.

Arguments manual {G} i.
Arguments now {G} i.
Arguments rng {G} i.
Arguments stamp {G} i.
Arguments later {G} i.

Section Page.

(** How the service renders a number as text, and Python's [float(str)]:
    both belong to the outside. *)
Variable format_number : Q -> string.
Variable parse_float : string -> option Q.

(** Whether the client library pads the rows it returns to a common
    length with empty texts, as gspread's [get_values] does in its later
    releases, or returns them as the service sent them. *)
Variable pad_values : bool.

Context {G : Type} `{Generator G}.

Definition render (c : cell) : string :=
  match c with
  | Blank => ""
  | Text s => s
  | Number x => format_number x
  end.

(** The values of a range as the service sends them: as text, without the
    trailing blank cells of a row and without the trailing blank rows. *)
Definition sent_values (r : a1_range) (g : grid) : list (list string) :=
  drop_trailing nonempty
    (map (fun row => map render (drop_trailing populated (firstn (range_width r) row)))
         (firstn (range_height r) (skipn (range_top r) g))).

(** The values of a range as the library returns them. *)
Definition read_range (r : a1_range) (g : grid) : list (list string) :=
  if pad_values then fill_gaps (sent_values r g) else sent_values r g.

(** [client.open_by_key]. *)
Definition open_by_key : io unit := api (fun s => (Returns tt, s)).

(** [ss.worksheet(title)]: the handle of a worksheet is its title. *)
Definition worksheet (title : string) : io string :=
  api (fun s =>
         match find_sheet title s with
         | Some _ => (Returns title, s)
         | None => (Raises WorksheetNotFound, s)
         end).

Definition add_worksheet (title : string) (nrows ncols : nat) : io string :=
  api (fun s =>
         match find_sheet title s with
         | Some _ => (Raises APIError, s)
         | None => (Returns title, (s ++ [(title, repeat (repeat Blank ncols) nrows)])%list)
         end).

(** [ws.update(range, values)]. *)
Definition update (ws : string) (r : a1_range) (values : list (list cell)) : io unit :=
  api (fun s =>
         match find_sheet ws s with
         | Some g => (Returns tt, put_sheet ws (write_rows (range_top r) values g) s)
         | None => (Raises APIError, s)
         end).

(** [ws.get_values(range)]. *)
Definition get_values (ws : string) (r : a1_range) : io (list (list string)) :=
  api (fun s =>
         match find_sheet ws s with
         | Some g => (Returns (read_range r g), s)
         | None => (Raises APIError, s)
         end).

(** [st.secrets.get("gsheet_worksheet", "latest")]. *)
Definition ws_name : io string := fun w => (Returns (sheet_title w), w).

Definition open_ws : io string :=
  open_by_key ;;;
  name <- ws_name ;;
  catch (worksheet name)
        (fun e =>
           match e with
           | WorksheetNotFound =>
               ws <- add_worksheet name 10 6 ;;
               update ws A1_D1 [map Text HEADER] ;;;
               ret ws
           | _ => raise e
           end).

Definition write_single_row (rec : record) : io unit :=
  ws <- open_ws ;;
  update ws A1_D1 [map Text HEADER] ;;;
  update ws A2_D2 [snapshot_cells rec].

(** Lines 53 to 55 of the page: what [read_latest] makes of the values. *)
Definition latest_of (data : list (list string)) : outcome (option DataFrame) :=
  if (List.length data <? 2)%nat || (List.length (nth 1 data []) <? 4)%nat
  then Returns None
  else match mk_frame [nth 1 data []] (nth 0 data []) with
       | Returns df => Returns (Some df)
       | Raises e => Raises e
       end.

Definition read_latest : io (option DataFrame) :=
  ws <- open_ws ;;
  data <- get_values ws A1_D2 ;;
  lift (latest_of data).

Definition get_last : io Q := fun w => (Returns (last_generate_ts (session w)), w).
Definition set_last (ts : Q) : io unit := fun w => (Returns tt, with_last w ts).

Definition due (now : Q) : io bool :=
  last <- get_last ;;
  ret (due_at now last).

(** [float(row[label])]. *)
Definition float_of (o : outcome (list string)) : outcome Q :=
  match o with
  | Raises e => Raises e
  | Returns [v] =>
      match parse_float v with
      | Some x => Returns x
      | None => Raises ValueError
      end
  | Returns _ => Raises TypeError
  end.

(** Lines 101 to 103 of the page: the three amounts of the row, converted
    in that order, before any of them is shown. *)
Definition amounts_of (row : list (string * string)) : outcome (Q * Q * Q) :=
  match float_of (getitem "current_assets" row) with
  | Raises e => Raises e
  | Returns ca =>
      match float_of (getitem "current_liabilities" row) with
      | Raises e => Raises e
      | Returns cl =>
          match float_of (getitem "inventory" row) with
          | Raises e => Raises e
          | Returns inv => Returns (ca, cl, inv)
          end
      end
  end.

(** The "Latest Emission" block. *)
Definition show_latest (latest : option DataFrame) : io panel :=
  match latest with
  | Some df =>
      if negb (empty df) then
        let row := iloc0 df in
        ca <- lift (float_of (getitem "current_assets" row)) ;;
        cl <- lift (float_of (getitem "current_liabilities" row)) ;;
        inv <- lift (float_of (getitem "inventory" row)) ;;
        ts <- lift (getitem "timestamp_utc" row) ;;
        ret (Metrics ca cl inv (hd ""%string ts))
      else ret Info
  | None => ret Info
  end.

(** [st.progress(value)] refuses a value outside [0, 1]. *)
Definition st_progress (value : Q) : io unit :=
  if Qle_bool 0 value && Qle_bool value 1 then ret tt else raise StreamlitAPIException.

(** The countdown and the progress value of lines 114 to 117. *)
Definition remaining_at (later last : Q) : Z :=
  Py.max_int 0 (INTERVAL_SECONDS - Py.int (fsub later last)).

Definition progress_of (remaining : Z) : Q :=
  if (INTERVAL_SECONDS =? 0)%Z then 1
  else fsub 1 (fdiv (inject_Z remaining) (inject_Z INTERVAL_SECONDS)).

(** One rerun of the page, from the button to the progress bar. *)
Definition tick (i : inputs G) : io view :=
  go <- (if manual i then ret true else due (now i)) ;;
  (if go then
     let rec := fst (generate_plausible_values (rng i) (stamp i)) in
     write_single_row rec ;;;
     set_last (now i)
   else ret tt) ;;;
  latest <- read_latest ;;
  p <- show_latest latest ;;
  last <- get_last ;;
  let remaining := remaining_at (later i) last in
  st_progress (progress_of remaining) ;;;
  ret {| latest_panel := p; remaining := remaining; progress := progress_of remaining |}.

(** One run of the script, lines 78 to 117: in the session state the host
    hands over, with the key [last_generate_ts] ([Some]) or, when the
    session starts, without it ([None]). *)
Definition script (i : inputs G) (sess : option session_state) (c : secrets) (s : service)
    : outcome view * world :=
  tick i {| config := c; session := init_session sess; store := s |}.

End Page.

(** ** A plain number format for examples

    Numbers are shown with two decimals, as ["1234.50"], and read back
    from unsigned decimals with at least one digit.  Python's [float] reads
    more (a sign, an exponent, blanks around the number); the reader here
    refuses those, and serves the examples only. *)
Module Plain.

Definition digits (n : Z) : string := NilZero.string_of_uint (N.to_uint (Z.to_N n)).

Definition format_number (x : Q) : string :=
  let c := round_half_even (x * 100) in
  let a := Z.abs c in
  ((if (c <? 0)%Z then "-" else "") ++ digits (a / 100) ++ "."
     ++ digits (a mod 100 / 10) ++ digits (a mod 10))%string.

Definition parse_float (s : string) : option Q :=
  match index 0 "." s with
  | Some k =>
      let frac := substring (S k) (String.length s - S k) s in
      if (String.length s <=? 1)%nat then None
      else
        match NilEmpty.uint_of_string (substring 0 k s), NilEmpty.uint_of_string frac with
        | Some a, Some b =>
            let p := inject_Z (10 ^ Z.of_nat (String.length frac)) in
            Some (rnd ((inject_Z (Z.of_uint a) * p + inject_Z (Z.of_uint b)) / p))
        | _, _ => None
        end
  | None =>
      if (String.length s =? 0)%nat then None
      else option_map (fun a => rnd (inject_Z (Z.of_uint a))) (NilEmpty.uint_of_string s)
  end.

(** A reachable service with no worksheet yet, at session start. *)
Definition fresh : world :=
  {| config := {| gsheet_worksheet := None |};
     session := {| last_generate_ts := 0 |};
     store := {| reachable := true; sheets := [] |} |}.

(** A worksheet holding the header only, ten seconds after a generation. *)
Definition header_only : world :=
  {| config := {| gsheet_worksheet := None |};
     session := {| last_generate_ts := 1699999990 |};
     store := {| reachable := true; sheets := [("latest"%string, new_sheet)] |} |}.

(** Two reruns: one with the button pressed, one without. *)
Definition pressed : inputs Lcg.t :=
  {| manual := true; now := 1700000000; rng := 7%Z;
     stamp := "2026-01-01T00:00:00+00:00"; later := 1700000001 |}.

Definition unpressed : inputs Lcg.t :=
  {| manual := false; now := 1700000000; rng := 7%Z;
     stamp := "2026-01-01T00:00:00+00:00"; later := 1700000001 |}.

(** The header over a row 2 populated in column D only, and over one
    populated in column A only. *)
Definition sparse : world :=
  {| config := {| gsheet_worksheet := None |};
     session := {| last_generate_ts := 0 |};
     store := {| reachable := true;
                 sheets := [("latest"%string,
                             [map Text HEADER; [Blank; Blank; Blank; Number 1]])] |} |}.

Definition short : world :=
  {| config := {| gsheet_worksheet := None |};
     session := {| last_generate_ts := 0 |};
     store := {| reachable := true;
                 sheets := [("latest"%string, [map Text HEADER; [Text "t"]])] |} |}.

(** The same worksheet behind a service that cannot be reached. *)
Definition offline : world :=
  {| config := {| gsheet_worksheet := None |};
     session := {| last_generate_ts := 1699999990 |};
     store := {| reachable := false; sheets := [("latest"%string, new_sheet)] |} |}.

(** A reader that takes what it cannot read for 0. *)
Definition lenient_float (s : string) : option Q :=
  Some match parse_float s with Some x => x | None => 0 end.

Definition sample : record :=
  {| timestamp_utc := "2026-01-01T00:00:00+00:00";
     current_assets := lit (14796527 # 100);
     current_liabilities := lit (9999901 # 100);
     inventory := lit (5000050 # 100) |}.

End Plain.

(** * Properties *)

(** ** Binary64 rounding *)

(** The model agrees with CPython on [0.1], [1/3] and [round(2.675, 2)]. *)
Example rnd_tenth : lit (1 # 10) == 3602879701896397 # 36028797018963968.
Proof. vm_compute. reflexivity. Qed.

Example rnd_third : fdiv 1 3 == 6004799503160661 # 18014398509481984.
Proof. vm_compute. reflexivity. Qed.

Example round_2675 : Py.round (lit (2675 # 1000)) 2 == 1503076375634903 # 562949953421312.
Proof. vm_compute. reflexivity. Qed.

Lemma pow2_pos k : 0 < pow2 k.
Proof. apply Qpower_0_lt. reflexivity. Qed.

Lemma pow2_add a b : pow2 (a + b) == pow2 a * pow2 b.
Proof. apply Qpower_plus. discriminate. Qed.

Lemma pow2_succ k : pow2 (k + 1) == 2 * pow2 k.
Proof. rewrite pow2_add. change (pow2 1) with (2 # 1). ring. Qed.

Lemma pow2_le a b : (a <= b)%Z -> pow2 a <= pow2 b.
Proof. intros H. apply Qpower_le_compat_l; [exact H | discriminate]. Qed.

Lemma pow2_lt_inv a b : pow2 a < pow2 b -> (a < b)%Z.
Proof. intros H. apply (Qpower_lt_compat_l_inv (2 # 1)); [exact H | reflexivity]. Qed.

Lemma pow2_inject k : (0 <= k)%Z -> pow2 k == inject_Z (2 ^ k).
Proof. intros H. unfold pow2. rewrite (Zpower_Qpower 2 k H). reflexivity. Qed.

Lemma pow2_cancel k : pow2 (- k) * pow2 k == 1.
Proof. rewrite <- pow2_add. replace (- k + k)%Z with 0%Z by lia. reflexivity. Qed.

Lemma Zlog2_bounds n : (0 < n)%Z ->
  pow2 (Z.log2 n) <= inject_Z n /\ inject_Z n < pow2 (Z.log2 n + 1).
Proof.
  intros H. destruct (Z.log2_spec n H) as [L U].
  pose proof (Z.log2_nonneg n) as P.
  rewrite !pow2_inject by lia. split.
  - rewrite <- Zle_Qle. exact L.
  - rewrite <- Zlt_Qlt. replace (Z.log2 n + 1)%Z with (Z.succ (Z.log2 n)) by lia. exact U.
Qed.

Lemma Qlog2_spec x : 0 < x -> pow2 (Qlog2 x) <= x /\ x < pow2 (Qlog2 x + 1).
Proof.
  intros Hx. unfold Qlog2.
  set (ln := Z.log2 (Qnum x)). set (ld := Z.log2 (Zpos (Qden x))).
  assert (Hn : (0 < Qnum x)%Z).
  { destruct x as [n d]. unfold Qlt in Hx. simpl in *. lia. }
  destruct (Zlog2_bounds (Qnum x) Hn) as [Ln Un].
  destruct (Zlog2_bounds (Zpos (Qden x)) (Pos2Z.is_pos _)) as [Ld Ud].
  fold ln in Ln, Un. fold ld in Ld, Ud.
  assert (Ex : x * inject_Z (Zpos (Qden x)) == inject_Z (Qnum x)).
  { destruct x as [n d]. simpl. rewrite (Qmake_Qdiv n d). field.
    intros E. discriminate E. }
  set (N := inject_Z (Qnum x)) in *. set (D := inject_Z (Zpos (Qden x))) in *.
  assert (HE : pow2 (ln - ld) * pow2 ld == pow2 ln).
  { rewrite <- pow2_add. replace (ln - ld + ld)%Z with ln by lia. reflexivity. }
  rewrite pow2_succ in Un, Ud.
  pose proof (pow2_pos ld) as Pd. pose proof (pow2_pos (ln - ld)) as Pe.
  set (A := pow2 ln) in *. set (B := pow2 ld) in *. set (E := pow2 (ln - ld)) in *.
  assert (Up : x < 2 * E).
  { apply Qnot_le_lt. intros C.
    assert (2 * E * B <= x * D) by nra. nra. }
  assert (Lo : E <= 2 * x).
  { apply Qnot_lt_le. intros C.
    assert (2 * x * D < E * (2 * B)) by nra. nra. }
  destruct (Qle_bool E x) eqn:T.
  - apply Qle_bool_iff in T. split; [exact T|].
    rewrite pow2_succ. fold E. exact Up.
  - assert (T' : x < E).
    { apply Qnot_le_lt. intros C. apply Qle_bool_iff in C. congruence. }
    assert (E == 2 * pow2 (ln - ld - 1)).
    { unfold E. rewrite <- pow2_succ. replace (ln - ld - 1 + 1)%Z with (ln - ld)%Z by lia.
      reflexivity. }
    replace (ln - ld - 1 + 1)%Z with (ln - ld)%Z by lia. fold E.
    split; [lra | exact T'].
Qed.

Lemma Qlog2_unique x e : pow2 e <= x -> x < pow2 (e + 1) -> Qlog2 x = e.
Proof.
  intros L U.
  assert (Hx : 0 < x) by (pose proof (pow2_pos e); lra).
  destruct (Qlog2_spec x Hx) as [L' U'].
  assert ((e < Qlog2 x + 1)%Z) by (apply pow2_lt_inv; lra).
  assert ((Qlog2 x < e + 1)%Z) by (apply pow2_lt_inv; lra).
  lia.
Qed.

Lemma Qlog2_le x y : 0 < x -> x <= y -> (Qlog2 x <= Qlog2 y)%Z.
Proof.
  intros Hx Hxy.
  destruct (Qlog2_spec x Hx) as [L _].
  destruct (Qlog2_spec y) as [_ U]; [lra|].
  assert ((Qlog2 x < Qlog2 y + 1)%Z) by (apply pow2_lt_inv; lra).
  lia.
Qed.


(** round_half_even *)

Lemma round_half_even_bounds x :
  (Qfloor x <= round_half_even x <= Qfloor x + 1)%Z.
Proof.
  unfold round_half_even.
  destruct (Qcompare (x - inject_Z (Qfloor x)) (1 # 2)); try lia.
  destruct (Z.even (Qfloor x)); lia.
Qed.

Lemma round_half_even_Z n : round_half_even (inject_Z n) = n.
Proof.
  unfold round_half_even. rewrite Qfloor_Z.
  destruct (Qcompare (inject_Z n - inject_Z n) (1 # 2)) eqn:C;
    [apply Qeq_alt in C | reflexivity | apply Qgt_alt in C]; exfalso; lra.
Qed.

Lemma Qcompare_cases a b :
  (Qcompare a b = Eq /\ a == b) \/ (Qcompare a b = Lt /\ a < b) \/
  (Qcompare a b = Gt /\ b < a).
Proof.
  destruct (Qcompare a b) eqn:C.
  - left. split; [reflexivity | apply Qeq_alt; exact C].
  - right. left. split; [reflexivity | apply Qlt_alt; exact C].
  - right. right. split; [reflexivity | apply Qgt_alt; exact C].
Qed.

Lemma round_half_even_le x y : x <= y -> (round_half_even x <= round_half_even y)%Z.
Proof.
  intros H. pose proof (Qfloor_resp_le x y H) as F.
  pose proof (round_half_even_bounds x) as Bx.
  pose proof (round_half_even_bounds y) as By.
  destruct (Z.eq_dec (Qfloor x) (Qfloor y)) as [E|NE]; [|lia].
  unfold round_half_even. rewrite <- E.
  destruct (Qcompare_cases (x - inject_Z (Qfloor x)) (1 # 2)) as [[Cx Px]|[[Cx Px]|[Cx Px]]];
  destruct (Qcompare_cases (y - inject_Z (Qfloor x)) (1 # 2)) as [[Cy Py]|[[Cy Py]|[Cy Py]]];
  rewrite Cx, Cy; try (destruct (Z.even (Qfloor x)); lia); try lia; exfalso; lra.
Qed.

Lemma round_half_even_error x :
  Qabs (inject_Z (round_half_even x) - x) <= 1 # 2.
Proof.
  pose proof (Qfloor_le x) as L. pose proof (Qlt_floor x) as U.
  rewrite inject_Z_plus in U. change (inject_Z 1) with 1 in U.
  apply Qabs_Qle_condition. unfold round_half_even.
  destruct (Qcompare_cases (x - inject_Z (Qfloor x)) (1 # 2)) as [[C P]|[[C P]|[C P]]];
    rewrite C; [destruct (Z.even (Qfloor x))| |];
    rewrite ?inject_Z_plus; change (inject_Z 1) with 1; split; lra.
Qed.

(** rnd *)

Lemma cexp_le x y : 0 < x -> x <= y -> (cexp x <= cexp y)%Z.
Proof. intros Hx Hxy. unfold cexp. pose proof (Qlog2_le x y Hx Hxy). lia. Qed.

Lemma rnd_pos_le_pow2 x k :
  0 < x -> x <= pow2 k -> (cexp x <= k)%Z -> rnd_pos x <= pow2 k.
Proof.
  intros Hx Hk Hc. unfold rnd_pos.
  pose proof (pow2_pos (cexp x)) as P. pose proof (pow2_pos (- cexp x)) as P'.
  assert (S : pow2 k == inject_Z (2 ^ (k - cexp x)) * pow2 (cexp x)).
  { rewrite <- pow2_inject by lia. rewrite <- pow2_add.
    replace (k - cexp x + cexp x)%Z with k by lia. reflexivity. }
  rewrite S. apply Qmult_le_compat_r; [|lra].
  rewrite <- Zle_Qle. rewrite <- (round_half_even_Z (2 ^ (k - cexp x))).
  apply round_half_even_le.
  rewrite <- pow2_inject by lia.
  assert (pow2 (k - cexp x) == pow2 k * pow2 (- cexp x)).
  { rewrite <- pow2_add. replace (k + - cexp x)%Z with (k - cexp x)%Z by lia. reflexivity. }
  rewrite H. apply Qmult_le_compat_r; lra.
Qed.

Lemma rnd_pos_ge_pow2 x k :
  0 < x -> pow2 k <= x -> (cexp x <= k)%Z -> pow2 k <= rnd_pos x.
Proof.
  intros Hx Hk Hc. unfold rnd_pos.
  pose proof (pow2_pos (cexp x)) as P. pose proof (pow2_pos (- cexp x)) as P'.
  assert (S : pow2 k == inject_Z (2 ^ (k - cexp x)) * pow2 (cexp x)).
  { rewrite <- pow2_inject by lia. rewrite <- pow2_add.
    replace (k - cexp x + cexp x)%Z with k by lia. reflexivity. }
  rewrite S. apply Qmult_le_compat_r; [|lra].
  rewrite <- Zle_Qle. rewrite <- (round_half_even_Z (2 ^ (k - cexp x))).
  apply round_half_even_le.
  rewrite <- pow2_inject by lia.
  assert (pow2 (k - cexp x) == pow2 k * pow2 (- cexp x)).
  { rewrite <- pow2_add. replace (k + - cexp x)%Z with (k - cexp x)%Z by lia. reflexivity. }
  rewrite H. apply Qmult_le_compat_r; lra.
Qed.

Lemma rnd_pos_nonneg x : 0 < x -> 0 <= rnd_pos x.
Proof.
  intros Hx. unfold rnd_pos.
  pose proof (pow2_pos (cexp x)) as P. pose proof (pow2_pos (- cexp x)) as P'.
  apply Qmult_le_0_compat; [|lra].
  change 0 with (inject_Z 0). rewrite <- Zle_Qle.
  rewrite <- (round_half_even_Z 0). apply round_half_even_le.
  apply Qmult_le_0_compat; simpl; lra.
Qed.

Lemma rnd_pos_le x y : 0 < x -> x <= y -> rnd_pos x <= rnd_pos y.
Proof.
  intros Hx Hxy. assert (Hy : 0 < y) by lra.
  pose proof (cexp_le x y Hx Hxy) as Hc.
  destruct (Z.eq_dec (cexp x) (cexp y)) as [E|NE].
  - unfold rnd_pos. rewrite E.
    pose proof (pow2_pos (cexp y)) as P. pose proof (pow2_pos (- cexp y)) as P'.
    apply Qmult_le_compat_r; [|lra].
    rewrite <- Zle_Qle. apply round_half_even_le.
    apply Qmult_le_compat_r; lra.
  - destruct (Qlog2_spec x Hx) as [_ Ux]. destruct (Qlog2_spec y Hy) as [Ly _].
    assert (Hl : (Qlog2 x + 1 <= Qlog2 y)%Z) by (unfold cexp in *; lia).
    pose proof (pow2_le _ _ Hl) as Hp.
    apply Qle_trans with (pow2 (Qlog2 y)).
    + apply rnd_pos_le_pow2; [exact Hx | lra | unfold cexp, prec in *; lia].
    + apply rnd_pos_ge_pow2; [exact Hy | exact Ly | unfold cexp, prec in *; lia].
Qed.

Lemma rnd_le x y : x <= y -> rnd x <= rnd y.
Proof.
  intros H. unfold rnd.
  destruct (Qcompare_cases x 0) as [[Cx Px]|[[Cx Px]|[Cx Px]]];
  destruct (Qcompare_cases y 0) as [[Cy Py]|[[Cy Py]|[Cy Py]]];
  rewrite Cx, Cy; try (exfalso; lra); try lra.
  - apply rnd_pos_nonneg. exact Py.
  - pose proof (rnd_pos_nonneg (- x)). lra.
  - assert (rnd_pos (- y) <= rnd_pos (- x)) by (apply rnd_pos_le; lra). lra.
  - pose proof (rnd_pos_nonneg (- x)). pose proof (rnd_pos_nonneg y). lra.
  - apply rnd_pos_le; lra.
Qed.

#[global] Instance rnd_comp : Proper (Qeq ==> Qeq) rnd.
Proof. intros x y E. apply Qle_antisym; apply rnd_le; lra. Qed.

(** Representable values are left alone *)

Lemma pow2_split a b : pow2 (a - b) == pow2 a * pow2 (- b).
Proof. rewrite <- pow2_add. replace (a + - b)%Z with (a - b)%Z by lia. reflexivity. Qed.

Lemma rnd_pos_dyadic m e :
  (0 < m <= 2 ^ prec)%Z -> (emin <= e)%Z ->
  rnd_pos (inject_Z m * pow2 e) == inject_Z m * pow2 e.
Proof.
  intros [Hm Hb] He. remember (inject_Z m * pow2 e) as x eqn:Dx.
  pose proof (pow2_pos e) as Pe.
  assert (Hm' : 0 < inject_Z m) by (change 0 with (inject_Z 0); rewrite <- Zlt_Qlt; exact Hm).
  assert (Hx : 0 < x) by (rewrite Dx; nra).
  destruct (Qlog2_spec x Hx) as [L U].
  assert (Hc : (cexp x <= e)%Z \/ (m = 2 ^ prec /\ cexp x = e + 1)%Z).
  { destruct (Z.eq_dec m (2 ^ prec)) as [E|NE].
    - right. split; [exact E|].
      assert (Hx2 : x == pow2 (prec + e)).
      { rewrite Dx. rewrite E, pow2_add.
        rewrite <- pow2_inject by (unfold prec; lia). reflexivity. }
      assert (Qlog2 x = (prec + e)%Z).
      { apply Qlog2_unique; rewrite Hx2; [lra|]. rewrite pow2_succ.
        pose proof (pow2_pos (prec + e)). lra. }
      unfold cexp. unfold prec, emin in *. lia.
    - left. assert (Hlt : x < pow2 (prec + e)).
      { rewrite Dx. rewrite pow2_add. rewrite (pow2_inject prec) by (unfold prec; lia).
        apply Qmult_lt_compat_r; [exact Pe|]. rewrite <- Zlt_Qlt. lia. }
      assert ((Qlog2 x < prec + e)%Z) by (apply pow2_lt_inv; lra).
      unfold cexp. lia. }
  assert (Hint : exists n, x * pow2 (- cexp x) == inject_Z n).
  { destruct Hc as [Hc|[E Hc]].
    - exists (m * 2 ^ (e - cexp x))%Z.
      rewrite inject_Z_mult. rewrite <- pow2_inject by lia.
      rewrite pow2_split. rewrite Dx at 1. ring.
    - exists (2 ^ (prec - 1))%Z. rewrite Hc. rewrite Dx, E.
      rewrite <- !pow2_inject by (unfold prec; lia).
      rewrite <- !pow2_add. replace (prec + e + - (e + 1))%Z with (prec - 1)%Z by lia.
      reflexivity. }
  destruct Hint as [n Hn]. unfold rnd_pos.
  assert (Hr : round_half_even (x * pow2 (- cexp x)) = n).
  { rewrite <- (round_half_even_Z n). apply Z.le_antisymm; apply round_half_even_le; lra. }
  rewrite Hr, <- Hn. rewrite <- Qmult_assoc, pow2_cancel. ring.
Qed.

Lemma rnd_pos_mantissa x :
  0 < x -> (0 <= round_half_even (x * pow2 (- cexp x)) <= 2 ^ prec)%Z.
Proof.
  intros Hx. destruct (Qlog2_spec x Hx) as [L U].
  pose proof (pow2_pos (- cexp x)) as P.
  split.
  - rewrite <- (round_half_even_Z 0). apply round_half_even_le.
    apply Qmult_le_0_compat; simpl; lra.
  - rewrite <- (round_half_even_Z (2 ^ prec)). apply round_half_even_le.
    rewrite <- pow2_inject by (unfold prec; lia).
    apply Qle_trans with (pow2 (Qlog2 x + 1) * pow2 (- cexp x)).
    + apply Qmult_le_compat_r; lra.
    + rewrite <- pow2_add. apply pow2_le. unfold cexp. lia.
Qed.

Lemma cexp_emin x : (emin <= cexp x)%Z.
Proof. unfold cexp. lia. Qed.

Lemma rnd_pos_idem x : 0 < x -> rnd (rnd_pos x) == rnd_pos x.
Proof.
  intros Hx. pose proof (rnd_pos_mantissa x Hx) as [M0 M1].
  pose proof (pow2_pos (cexp x)) as P.
  destruct (Z.eq_dec (round_half_even (x * pow2 (- cexp x))) 0) as [Z0|NZ].
  - assert (E : rnd_pos x == 0) by (unfold rnd_pos; rewrite Z0; ring).
    rewrite E. reflexivity.
  - assert (Hpos : 0 < rnd_pos x).
    { unfold rnd_pos. apply Qmult_lt_0_compat; [|exact P].
      change 0 with (inject_Z 0). rewrite <- Zlt_Qlt. lia. }
    unfold rnd at 1. destruct (Qcompare_cases (rnd_pos x) 0) as [[C Q]|[[C Q]|[C Q]]];
      rewrite C; try (exfalso; lra).
    unfold rnd_pos at 1 3. apply rnd_pos_dyadic; [lia | apply cexp_emin].
Qed.

Lemma rnd_opp x : rnd (- x) == - rnd x.
Proof.
  unfold rnd.
  destruct (Qcompare_cases x 0) as [[Cx Px]|[[Cx Px]|[Cx Px]]];
  destruct (Qcompare_cases (- x) 0) as [[Cy Py]|[[Cy Py]|[Cy Py]]];
  rewrite Cx, Cy; try (exfalso; lra); try lra.
  assert (E : - - x == x) by ring.
  assert (rnd_pos (- - x) == rnd_pos x).
  { apply Qle_antisym; apply rnd_pos_le; lra. }
  lra.
Qed.

Lemma rnd_cases x :
  (x == 0 /\ rnd x == 0) \/ (x < 0 /\ rnd x == - rnd_pos (- x)) \/
  (0 < x /\ rnd x == rnd_pos x).
Proof.
  unfold rnd.
  destruct (Qcompare_cases x 0) as [[Cx Px]|[[Cx Px]|[Cx Px]]]; rewrite Cx.
  - left. split; [exact Px | reflexivity].
  - right. left. split; [exact Px | reflexivity].
  - right. right. split; [exact Px | reflexivity].
Qed.

Lemma rnd_idem x : rnd (rnd x) == rnd x.
Proof.
  destruct (rnd_cases x) as [[Px E]|[[Px E]|[Px E]]]; rewrite E.
  - reflexivity.
  - rewrite rnd_opp. rewrite rnd_pos_idem by lra. reflexivity.
  - apply rnd_pos_idem. exact Px.
Qed.

Lemma rnd_dyadic m e :
  (Z.abs m <= 2 ^ prec)%Z -> (emin <= e)%Z -> is_float (inject_Z m * pow2 e).
Proof.
  intros Hm He. unfold is_float. pose proof (pow2_pos e) as Pe.
  destruct (Z.lt_trichotomy m 0) as [N|[Z0|P]].
  - assert (E : inject_Z m * pow2 e == - (inject_Z (- m) * pow2 e)).
    { rewrite inject_Z_opp. ring. }
    rewrite E, rnd_opp. apply Qopp_comp.
    assert (Hpos : 0 < inject_Z (- m) * pow2 e).
    { apply Qmult_lt_0_compat; [|exact Pe]. change 0 with (inject_Z 0).
      rewrite <- Zlt_Qlt. lia. }
    unfold rnd. destruct (Qcompare_cases (inject_Z (- m) * pow2 e) 0) as [[C Q]|[[C Q]|[C Q]]];
      rewrite C; try (exfalso; lra).
    apply rnd_pos_dyadic; lia.
  - subst m. assert (E : inject_Z 0 * pow2 e == 0) by ring. rewrite E. reflexivity.
  - assert (Hpos : 0 < inject_Z m * pow2 e).
    { apply Qmult_lt_0_compat; [|exact Pe]. change 0 with (inject_Z 0).
      rewrite <- Zlt_Qlt. lia. }
    unfold rnd. destruct (Qcompare_cases (inject_Z m * pow2 e) 0) as [[C Q]|[[C Q]|[C Q]]];
      rewrite C; try (exfalso; lra).
    apply rnd_pos_dyadic; lia.
Qed.

Lemma rnd_Z n : (Z.abs n <= 2 ^ prec)%Z -> rnd (inject_Z n) == inject_Z n.
Proof.
  intros H. pose proof (rnd_dyadic n 0 H ltac:(unfold emin; lia)) as E.
  unfold is_float in E. change (pow2 0) with 1 in E.
  rewrite Qmult_1_r in E. exact E.
Qed.

(** ** Python and NumPy primitives *)

Lemma Qle_bool_false x y : Qle_bool x y = false -> y < x.
Proof.
  intros E. apply Qnot_le_lt. intros C. apply Qle_bool_iff in C. congruence.
Qed.

Lemma Qltb_true a b : Py.Qltb a b = true -> a < b.
Proof.
  unfold Py.Qltb. intros E. apply Qle_bool_false. apply negb_true_iff. exact E.
Qed.

Lemma Qltb_false a b : Py.Qltb a b = false -> b <= a.
Proof.
  unfold Py.Qltb. intros E. apply Qle_bool_iff. apply negb_false_iff. exact E.
Qed.

Lemma Qltb_irrel a b : b <= a -> Py.Qltb a b = false.
Proof.
  intros L. destruct (Py.Qltb a b) eqn:E; [|reflexivity].
  apply Qltb_true in E. exfalso. lra.
Qed.

Lemma py_min_le a b : Py.min a b <= a /\ Py.min a b <= b.
Proof.
  unfold Py.min. destruct (Py.Qltb b a) eqn:E.
  - apply Qltb_true in E. split; lra.
  - apply Qltb_false in E. split; lra.
Qed.

Lemma py_min_ge a b c : c <= a -> c <= b -> c <= Py.min a b.
Proof. intros. unfold Py.min. destruct (Py.Qltb b a); assumption. Qed.

Lemma py_min_left a b : a <= b -> Py.min a b = a.
Proof. intros L. unfold Py.min. rewrite (Qltb_irrel b a L). reflexivity. Qed.

Lemma py_max_ge a b : a <= Py.max a b /\ b <= Py.max a b.
Proof.
  unfold Py.max. destruct (Py.Qltb a b) eqn:E.
  - apply Qltb_true in E. split; lra.
  - apply Qltb_false in E. split; lra.
Qed.

Lemma py_max_left a b : b <= a -> Py.max a b = a.
Proof. intros L. unfold Py.max. rewrite (Qltb_irrel a b L). reflexivity. Qed.

Lemma clip_range x lo hi : lo <= hi -> lo <= Np.clip x lo hi <= hi.
Proof.
  intros L. unfold Np.clip, Np.minimum, Np.maximum.
  destruct (Qle_bool lo x) eqn:E1.
  - apply Qle_bool_iff in E1. destruct (Qle_bool x hi) eqn:E2.
    + apply Qle_bool_iff in E2. split; assumption.
    + split; lra.
  - apply Qle_bool_false in E1. destruct (Qle_bool lo hi) eqn:E2.
    + split; lra.
    + apply Qle_bool_false in E2. exfalso. lra.
Qed.

Lemma clip_cases x lo hi :
  Np.clip x lo hi = x \/ Np.clip x lo hi = lo \/ Np.clip x lo hi = hi.
Proof.
  unfold Np.clip, Np.minimum, Np.maximum.
  destruct (Qle_bool lo x); [destruct (Qle_bool x hi) | destruct (Qle_bool lo hi)]; auto.
Qed.

Lemma round_le x y n : x <= y -> Py.round x n <= Py.round y n.
Proof.
  intros L. unfold Py.round. apply rnd_le.
  assert (P : 0 < inject_Z (10 ^ Z.of_nat n)).
  { change 0 with (inject_Z 0). rewrite <- Zlt_Qlt. apply Z.pow_pos_nonneg; lia. }
  apply Qmult_le_compat_r.
  - rewrite <- Zle_Qle. apply round_half_even_le. apply Qmult_le_compat_r; lra.
  - apply Qlt_le_weak, Qinv_lt_0_compat, P.
Qed.

Lemma round_two_decimals x : two_decimals (Py.round x 2).
Proof. exists (round_half_even (x * 100)). reflexivity. Qed.

Ltac by_computation := apply Qle_bool_iff; vm_compute; reflexivity.

(** ** Rounding twice to two decimals *)

Lemma inject_Z_pred n : inject_Z (n - 1) == inject_Z n - 1.
Proof. unfold Qeq. simpl. lia. Qed.

Lemma inject_Z_succ n : inject_Z (n + 1) == inject_Z n + 1.
Proof. unfold Qeq. simpl. lia. Qed.

Lemma round_half_even_near x n :
  inject_Z n - (1 # 2) < x -> x < inject_Z n + (1 # 2) -> round_half_even x = n.
Proof.
  intros L U. pose proof (Qfloor_le x) as FL. pose proof (Qlt_floor x) as FU.
  rewrite inject_Z_succ in FU.
  assert (Hf : (n - 1 <= Qfloor x <= n)%Z).
  { split.
    - assert (B : inject_Z (n - 1) < inject_Z (Qfloor x + 1)).
      { rewrite inject_Z_pred, inject_Z_succ. lra. }
      rewrite <- Zlt_Qlt in B. lia.
    - assert (B : inject_Z (Qfloor x) < inject_Z (n + 1)).
      { rewrite inject_Z_succ. lra. }
      rewrite <- Zlt_Qlt in B. lia. }
  unfold round_half_even.
  destruct (Z.eq_dec (Qfloor x) n) as [E|NE].
  - rewrite E.
    destruct (Qcompare_cases (x - inject_Z n) (1 # 2)) as [[C P]|[[C P]|[C P]]];
      rewrite C; try reflexivity; exfalso; lra.
  - assert (E : Qfloor x = (n - 1)%Z) by lia. rewrite E.
    pose proof (inject_Z_pred n) as I.
    destruct (Qcompare_cases (x - inject_Z (n - 1)) (1 # 2)) as [[C P]|[[C P]|[C P]]];
      rewrite C; try (exfalso; lra). lia.
Qed.

Lemma rnd_pos_error x : 0 < x -> Qabs (rnd_pos x - x) <= pow2 (cexp x - 1).
Proof.
  intros Hx. unfold rnd_pos.
  pose proof (pow2_pos (cexp x)) as P.
  pose proof (round_half_even_error (x * pow2 (- cexp x))) as E.
  set (m := inject_Z (round_half_even (x * pow2 (- cexp x)))) in *.
  assert (S : m * pow2 (cexp x) - x == (m - x * pow2 (- cexp x)) * pow2 (cexp x)).
  { assert (C := pow2_cancel (cexp x)).
    transitivity (m * pow2 (cexp x) - x * (pow2 (- cexp x) * pow2 (cexp x)));
      [rewrite C; ring | ring]. }
  rewrite S, Qabs_Qmult. rewrite (Qabs_pos (pow2 (cexp x))) by lra.
  assert (H2 : pow2 (cexp x - 1) == (1 # 2) * pow2 (cexp x)).
  { rewrite pow2_split. assert (Hh : pow2 (- (1)) == 1 # 2) by reflexivity.
    rewrite Hh. ring. }
  rewrite H2. apply Qmult_le_compat_r; lra.
Qed.

Lemma cexp_below x k : 0 < x -> x < pow2 k -> (emin + prec <= k)%Z -> (cexp x <= k - prec)%Z.
Proof.
  intros Hx U K. destruct (Qlog2_spec x Hx) as [L _].
  assert ((Qlog2 x < k)%Z) by (apply pow2_lt_inv; lra).
  unfold cexp. lia.
Qed.

Lemma round_decimal_stable n :
  (0 <= n < 2 ^ 45)%Z ->
  Py.round (lit (inject_Z n / 100)) 2 == lit (inject_Z n / 100).
Proof.
  intros [N0 N1]. unfold Py.round, lit.
  change (inject_Z (10 ^ Z.of_nat 2)) with 100.
  destruct (Z.eq_dec n 0) as [Z0|NZ]; [subst n; vm_compute; reflexivity|].
  set (d := inject_Z n / 100).
  assert (Hn : 1 <= inject_Z n).
  { change 1 with (inject_Z 1). rewrite <- Zle_Qle. lia. }
  assert (Hn' : inject_Z n < inject_Z (2 ^ 45)) by (rewrite <- Zlt_Qlt; exact N1).
  assert (Hd : 0 < d) by (unfold d; apply Qlt_shift_div_l; lra).
  assert (Hd' : d < pow2 40).
  { unfold d. apply Qlt_shift_div_r; [reflexivity|].
    apply Qlt_trans with (inject_Z (2 ^ 45)); [exact Hn'|]. vm_compute. reflexivity. }
  assert (Hc : (cexp d <= -13)%Z).
  { pose proof (cexp_below d 40 Hd Hd'). unfold emin, prec in *. lia. }
  destruct (rnd_cases d) as [[Px _]|[[Px _]|[_ E]]]; try (exfalso; lra).
  pose proof (rnd_pos_error d Hd) as Err. rewrite <- E in Err.
  assert (Hp : pow2 (cexp d - 1) <= pow2 (-14)) by (apply pow2_le; lia).
  change (pow2 (-14)) with (1 # 16384) in Hp.
  apply Qabs_Qle_condition in Err. destruct Err as [E1 E2].
  assert (R : round_half_even (rnd d * 100) = n).
  { apply round_half_even_near.
    - assert (D : inject_Z n == d * 100) by (unfold d; field). rewrite D. lra.
    - assert (D : inject_Z n == d * 100) by (unfold d; field). rewrite D. lra. }
  rewrite R. reflexivity.
Qed.

Lemma round_twice x :
  0 <= x -> x <= 1000000 -> Py.round (Py.round x 2) 2 == Py.round x 2.
Proof.
  intros X0 X1.
  assert (E : Py.round x 2 = lit (inject_Z (round_half_even (x * 100)) / 100)) by reflexivity.
  rewrite E. apply round_decimal_stable. split.
  - rewrite <- (round_half_even_Z 0). apply round_half_even_le.
    change (inject_Z 0) with 0. lra.
  - apply Z.le_lt_trans with 100000000%Z; [|reflexivity].
    rewrite <- (round_half_even_Z 100000000). apply round_half_even_le.
    change (inject_Z 100000000) with 100000000. lra.
Qed.

(** ** The sampler *)

Section SamplerFacts.

Context {G : Type} `{Generator G}.

Lemma generate_plausible_values_eq (rng : G) (stamp : string) :
  fst (generate_plausible_values rng stamp) =
  {| timestamp_utc := stamp;
     current_assets := Py.round (sampled_ca rng) 2;
     current_liabilities := Py.round (Py.max (unfloored_cl rng) 1) 2;
     inventory := Py.round (Py.min (uncapped_inv rng) (sampled_ca rng)) 2 |}.
Proof.
  unfold generate_plausible_values, unfloored_cl, uncapped_inv, sampled_cl_prop,
    sampled_inv_prop, sampled_ca.
  destruct (lognormal 11 (lit (35 # 100)) rng) as [x g1]. simpl.
  destruct (uniform (lit (10 # 100)) (lit (60 # 100)) g1) as [p g2]. simpl.
  destruct (uniform (lit (30 # 100)) (lit (110 # 100)) g2) as [q g3]. reflexivity.
Qed.

Lemma sampled_ca_range (rng : G) : 50000 <= sampled_ca rng <= 250000.
Proof. apply clip_range. discriminate. Qed.

Lemma sampled_ca_float (rng : G) : lognormal_is_float -> is_float (sampled_ca rng).
Proof.
  intros F. unfold sampled_ca.
  destruct (clip_cases (fst (lognormal 11 (lit (35 # 100)) rng)) 50000 250000)
    as [E|[E|E]]; rewrite E.
  - apply F.
  - vm_compute. reflexivity.
  - vm_compute. reflexivity.
Qed.

End SamplerFacts.

(** ** The example generators *)

Lemma next_double_range (g : Lcg.t) : 0 <= Lcg.next_double g < 1.
Proof.
  unfold Lcg.next_double, Lcg.step.
  set (s := ((6364136223846793005 * g + 1442695040888963407) mod 2 ^ 64)%Z).
  assert (Hs : (0 <= s < 2 ^ 64)%Z) by (apply Z.mod_pos_bound; lia).
  assert (Hk : (0 <= s / 2 ^ 11 < 2 ^ 53)%Z).
  { split; [apply Z.div_pos; lia | apply Z.div_lt_upper_bound; lia]. }
  assert (P : pow2 (-53) == 1 # (2 ^ 53)) by reflexivity.
  rewrite P. destruct Hk as [K0 K1].
  rewrite Zle_Qle in K0. rewrite Zlt_Qlt in K1.
  set (k := inject_Z (s / 2 ^ 11)) in *.
  change (inject_Z (2 ^ 53)) with 9007199254740992 in K1. change (inject_Z 0) with 0 in K0.
  change (1 # 2 ^ 53) with (1 # 9007199254740992).
  split; lra.
Qed.

Lemma lcg_uniform_in_range (low high : Q) :
  is_float low -> low <= high -> fadd low (fsub high low) <= high ->
  uniform_in_range (G := Lcg.t) low high.
Proof.
  intros Fl Lh Top g. simpl. unfold Lcg.uniform. simpl.
  destruct (next_double_range g) as [U0 U1]. set (u := Lcg.next_double g) in *.
  split; [apply rnd_idem|].
  assert (R0 : 0 <= fsub high low).
  { unfold fsub. change 0 with (rnd 0). apply rnd_le. lra. }
  assert (T0 : 0 <= fmul (fsub high low) u).
  { unfold fmul. change 0 with (rnd 0). apply rnd_le. apply Qmult_le_0_compat; lra. }
  assert (T1 : fmul (fsub high low) u <= fsub high low).
  { assert (Hr : rnd (fsub high low) == fsub high low) by apply rnd_idem.
    unfold fmul. rewrite <- Hr at 2. apply rnd_le. nra. }
  unfold is_float in Fl. split.
  - rewrite <- Fl at 1. apply rnd_le. lra.
  - apply Qle_trans with (fadd low (fsub high low)); [|exact Top].
    apply rnd_le. lra.
Qed.

Lemma lcg_inventory_draws : uniform_in_range (G := Lcg.t) (lit (10 # 100)) (lit (60 # 100)).
Proof.
  apply lcg_uniform_in_range; [apply rnd_idem | by_computation | by_computation].
Qed.

Lemma lcg_liabilities_draws : uniform_in_range (G := Lcg.t) (lit (30 # 100)) (lit (110 # 100)).
Proof.
  apply lcg_uniform_in_range; [apply rnd_idem | by_computation | by_computation].
Qed.

Lemma lcg_lognormal_is_float : lognormal_is_float (G := Lcg.t).
Proof. intros mean sigma g. apply rnd_idem. Qed.

(** ** Claims about the sampler *)

Section SamplerClaims.

Context {G : Type} `{Generator G}.

Lemma uncapped_inv_bounds (rng : G) :
  uniform_in_range (lit (10 # 100)) (lit (60 # 100)) ->
  3125 <= uncapped_inv rng /\ (lognormal_is_float -> uncapped_inv rng <= sampled_ca rng).
Proof.
  intros U. unfold uncapped_inv, sampled_inv_prop.
  destruct (U (snd (lognormal 11 (lit (35 # 100)) rng))) as [_ [L R]].
  set (p := fst (uniform (lit (10 # 100)) (lit (60 # 100))
                   (snd (lognormal 11 (lit (35 # 100)) rng)))) in *.
  pose proof (sampled_ca_range rng) as [C0 C1]. set (ca := sampled_ca rng) in *.
  assert (L' : 1 # 16 <= lit (10 # 100)) by by_computation.
  assert (R' : lit (60 # 100) <= 1) by by_computation.
  split.
  - assert (E : 3125 == rnd 3125) by (vm_compute; reflexivity).
    rewrite E. apply rnd_le. nra.
  - intros F. pose proof (sampled_ca_float rng F) as Fc. fold ca in Fc.
    unfold is_float in Fc. unfold fmul. rewrite <- Fc at 2. apply rnd_le. nra.
Qed.

Lemma unfloored_cl_bounds (rng : G) :
  uniform_in_range (lit (30 # 100)) (lit (110 # 100)) -> 12500 <= unfloored_cl rng.
Proof.
  intros U. unfold unfloored_cl, sampled_cl_prop.
  destruct (U (snd (uniform (lit (10 # 100)) (lit (60 # 100))
                      (snd (lognormal 11 (lit (35 # 100)) rng))))) as [_ [L R]].
  set (q := fst (uniform (lit (30 # 100)) (lit (110 # 100)) _)) in *.
  pose proof (sampled_ca_range rng) as [C0 C1]. set (ca := sampled_ca rng) in *.
  assert (L' : 1 # 4 <= lit (30 # 100)) by by_computation.
  assert (E : 12500 == rnd 12500) by (vm_compute; reflexivity).
  rewrite E. apply rnd_le. nra.
Qed.

(** C1: whatever the generator draws, a snapshot has its current assets in
    [50,000, 250,000], its inventory positive and at most the current
    assets, and its current liabilities at least 1.0.  Of the generator
    only the documented range of the inventory draw is used. *)
Theorem generate_plausible_values_ranges (rng : G) (stamp : string) :
  uniform_in_range (lit (10 # 100)) (lit (60 # 100)) ->
  50000 <= current_assets (fst (generate_plausible_values rng stamp)) <= 250000 /\
  0 < inventory (fst (generate_plausible_values rng stamp))
    <= current_assets (fst (generate_plausible_values rng stamp)) /\
  1 <= current_liabilities (fst (generate_plausible_values rng stamp)).
Proof.
  intros U. rewrite generate_plausible_values_eq. simpl.
  pose proof (sampled_ca_range rng) as [C0 C1].
  destruct (uncapped_inv_bounds rng U) as [I0 _].
  assert (E1 : Py.round 50000 2 == 50000) by (vm_compute; reflexivity).
  assert (E2 : Py.round 250000 2 == 250000) by (vm_compute; reflexivity).
  assert (E3 : Py.round 3125 2 == 3125) by (vm_compute; reflexivity).
  assert (E4 : Py.round 1 2 == 1) by (vm_compute; reflexivity).
  repeat split.
  - rewrite <- E1. apply round_le. exact C0.
  - rewrite <- E2. apply round_le. exact C1.
  - apply Qlt_le_trans with (Py.round 3125 2); [rewrite E3; reflexivity|].
    apply round_le. apply py_min_ge; lra.
  - apply round_le. apply py_min_le.
  - apply Qle_trans with (Py.round 1 2); [rewrite E4; apply Qle_refl|].
    apply round_le. apply py_max_ge.
Qed.

(** C5: each of the three monetary fields of a snapshot is a float written
    with at most two decimal digits: the float of some [n / 100]. *)
Theorem generate_plausible_values_two_decimals (rng : G) (stamp : string) :
  two_decimals (current_assets (fst (generate_plausible_values rng stamp))) /\
  two_decimals (current_liabilities (fst (generate_plausible_values rng stamp))) /\
  two_decimals (inventory (fst (generate_plausible_values rng stamp))).
Proof.
  rewrite generate_plausible_values_eq. simpl.
  repeat split; apply round_two_decimals.
Qed.

(** X14: on the values the code draws, rounding a field of the snapshot to
    two decimals once more gives the field back. *)
Lemma snapshot_round_twice (rng : G) (stamp : string) :
  uniform_in_range (lit (10 # 100)) (lit (60 # 100)) ->
  uniform_in_range (lit (30 # 100)) (lit (110 # 100)) ->
  Py.round (current_assets (fst (generate_plausible_values rng stamp))) 2
    == current_assets (fst (generate_plausible_values rng stamp)) /\
  Py.round (current_liabilities (fst (generate_plausible_values rng stamp))) 2
    == current_liabilities (fst (generate_plausible_values rng stamp)) /\
  Py.round (inventory (fst (generate_plausible_values rng stamp))) 2
    == inventory (fst (generate_plausible_values rng stamp)).
Proof.
  intros U1 U2. rewrite generate_plausible_values_eq. simpl.
  pose proof (sampled_ca_range rng) as [C0 C1].
  destruct (uncapped_inv_bounds rng U1) as [I0 _].
  pose proof (unfloored_cl_bounds rng U2) as L0.
  assert (L1 : unfloored_cl rng <= 500000).
  { unfold unfloored_cl, sampled_cl_prop.
    destruct (U2 (snd (uniform (lit (10 # 100)) (lit (60 # 100))
                         (snd (lognormal 11 (lit (35 # 100)) rng))))) as [_ [_ R]].
    set (q := fst (uniform (lit (30 # 100)) (lit (110 # 100)) _)) in *.
    assert (R' : lit (110 # 100) <= 2) by by_computation.
    assert (E : 500000 == rnd 500000) by (vm_compute; reflexivity).
    rewrite E. apply rnd_le. fold (sampled_ca rng). nra. }
  destruct (py_min_le (uncapped_inv rng) (sampled_ca rng)) as [_ M1].
  assert (M0 : 3125 <= Py.min (uncapped_inv rng) (sampled_ca rng)).
  { apply py_min_ge; lra. }
  destruct (py_max_ge (unfloored_cl rng) 1) as [_ X0].
  assert (X1 : Py.max (unfloored_cl rng) 1 <= 500000).
  { unfold Py.max. destruct (Py.Qltb (unfloored_cl rng) 1); lra. }
  repeat split; apply round_twice; lra.
Qed.

(** C7: whatever the draws, also a proportion above its range, the cap
    leaves the inventory at most the current assets, in the locals and in
    the snapshot, and it never raises the inventory. *)
Theorem inventory_cap (rng : G) (stamp : string) :
  Py.min (uncapped_inv rng) (sampled_ca rng) <= sampled_ca rng /\
  Py.min (uncapped_inv rng) (sampled_ca rng) <= uncapped_inv rng /\
  inventory (fst (generate_plausible_values rng stamp))
    <= current_assets (fst (generate_plausible_values rng stamp)).
Proof.
  rewrite generate_plausible_values_eq. simpl.
  destruct (py_min_le (uncapped_inv rng) (sampled_ca rng)) as [A B].
  repeat split; [exact B | exact A | apply round_le; exact B].
Qed.

(** C10: on the values the code itself draws, the cap and the floor change
    nothing: the inventory before the cap is already at most the current
    assets and the liabilities before the floor already at least 1.0. *)
Theorem clamps_change_nothing (rng : G) (stamp : string) :
  lognormal_is_float ->
  uniform_in_range (lit (10 # 100)) (lit (60 # 100)) ->
  uniform_in_range (lit (30 # 100)) (lit (110 # 100)) ->
  uncapped_inv rng <= sampled_ca rng /\
  1 <= unfloored_cl rng /\
  Py.min (uncapped_inv rng) (sampled_ca rng) = uncapped_inv rng /\
  Py.max (unfloored_cl rng) 1 = unfloored_cl rng /\
  fst (generate_plausible_values rng stamp) =
    {| timestamp_utc := stamp;
       current_assets := Py.round (sampled_ca rng) 2;
       current_liabilities := Py.round (unfloored_cl rng) 2;
       inventory := Py.round (uncapped_inv rng) 2 |}.
Proof.
  intros F U1 U2.
  destruct (uncapped_inv_bounds rng U1) as [_ I]. specialize (I F).
  pose proof (unfloored_cl_bounds rng U2) as C.
  assert (C' : 1 <= unfloored_cl rng) by lra.
  pose proof (py_min_left _ _ I) as Emin. pose proof (py_max_left _ _ C') as Emax.
  repeat split; try assumption.
  rewrite generate_plausible_values_eq, Emin, Emax. reflexivity.
Qed.

End SamplerClaims.

Lemma generate_plausible_values_ranges_witness :
  uniform_in_range (G := Lcg.t) (lit (10 # 100)) (lit (60 # 100)) /\
  (50000 <= current_assets (fst (generate_plausible_values (7%Z : Lcg.t) "t")) <= 250000 /\
   0 < inventory (fst (generate_plausible_values (7%Z : Lcg.t) "t"))
     <= current_assets (fst (generate_plausible_values (7%Z : Lcg.t) "t")) /\
   1 <= current_liabilities (fst (generate_plausible_values (7%Z : Lcg.t) "t"))).
Proof.
  split.
  - exact lcg_inventory_draws.
  - exact (generate_plausible_values_ranges (7%Z : Lcg.t) "t" lcg_inventory_draws).
Defined.

Lemma clamps_change_nothing_witness :
  lognormal_is_float (G := Lcg.t) /\
  uniform_in_range (G := Lcg.t) (lit (10 # 100)) (lit (60 # 100)) /\
  uniform_in_range (G := Lcg.t) (lit (30 # 100)) (lit (110 # 100)) /\
  Py.min (uncapped_inv (7%Z : Lcg.t)) (sampled_ca (7%Z : Lcg.t)) = uncapped_inv (7%Z : Lcg.t).
Proof.
  split; [exact lcg_lognormal_is_float|].
  split; [exact lcg_inventory_draws|].
  split; [exact lcg_liabilities_draws|].
  exact (proj1 (proj2 (proj2 (clamps_change_nothing (7%Z : Lcg.t) "t"
           lcg_lognormal_is_float lcg_inventory_draws lcg_liabilities_draws)))).
Defined.

(** Scenario C: current assets 200,000 and a proportion of 0.80, then one
    of 1.50: the inventory is 160,000, then capped at 200,000. *)
Example scenario_c :
  inventory (fst (generate_plausible_values ([200000; 8 # 10; 5 # 10] : Tape.t) "t")) == 160000 /\
  inventory (fst (generate_plausible_values ([200000; 15 # 10; 5 # 10] : Tape.t) "t")) == 200000.
Proof. split; vm_compute; reflexivity. Qed.

(** ** The store *)

Lemma find_put_sheet title g s : find_sheet title (put_sheet title g s) = Some g.
Proof.
  induction s as [|[t g0] s IH]; simpl.
  - rewrite String.eqb_refl. reflexivity.
  - destruct (String.eqb t title) eqn:E; simpl; rewrite E; [reflexivity | exact IH].
Qed.

Lemma find_sheet_added title g s :
  find_sheet title s = None -> find_sheet title (s ++ [(title, g)]) = Some g.
Proof.
  induction s as [|[t g0] s IH]; simpl; intros N.
  - rewrite String.eqb_refl. reflexivity.
  - destruct (String.eqb t title); [discriminate | apply IH, N].
Qed.

Lemma with_sheets_same w : with_sheets w (sheets (store w)) = w.
Proof. destruct w as [c s [r sh]]. reflexivity. Qed.

Lemma bind_returns {A B : Type} (m : io A) (k : A -> io B) w b w' :
  bind m k w = (Returns b, w') ->
  exists a w1, m w = (Returns a, w1) /\ k a w1 = (Returns b, w').
Proof.
  unfold bind. destruct (m w) as [[a|e] w1]; intros E.
  - exists a, w1. split; [reflexivity | exact E].
  - discriminate E.
Qed.

Lemma bind_step {A B : Type} (m : io A) (k : A -> io B) w a w1 :
  m w = (Returns a, w1) -> bind m k w = k a w1.
Proof. intros E. unfold bind. rewrite E. reflexivity. Qed.

Lemma bind_raises {A B : Type} (m : io A) (k : A -> io B) w e w1 :
  m w = (Raises e, w1) -> bind m k w = (Raises e, w1).
Proof. intros E. unfold bind. rewrite E. reflexivity. Qed.

Lemma serves_with_sheets w g g' :
  serves w g ->
  serves (with_sheets w (put_sheet (sheet_title w) g' (sheets (store w)))) g'.
Proof.
  intros [R _]. split; [exact R|].
  unfold current_grid. simpl. apply find_put_sheet.
Qed.

Section PageFacts.

Variable format_number : Q -> string.
Variable parse_float : string -> option Q.
Variable pad_values : bool.

Context {G : Type} `{Generator G}.


Lemma update_serves w g r values :
  serves w g ->
  update (sheet_title w) r values w =
    (Returns tt, with_sheets w (put_sheet (sheet_title w)
                                  (write_rows (range_top r) values g) (sheets (store w)))).
Proof.
  intros [R F]. unfold update, api. rewrite R. unfold current_grid in F. rewrite F.
  reflexivity.
Qed.

Lemma get_values_serves w g r :
  serves w g ->
  get_values format_number pad_values (sheet_title w) r w
  = (Returns (read_range format_number pad_values r g), w).
Proof.
  intros [R F]. unfold get_values, api. rewrite R. unfold current_grid in F. rewrite F.
  rewrite with_sheets_same. reflexivity.
Qed.

Lemma open_ws_serves w g : serves w g -> open_ws w = (Returns (sheet_title w), w).
Proof.
  intros [R F]. unfold open_ws.
  assert (E1 : open_by_key w = (Returns tt, w)).
  { unfold open_by_key, api. rewrite R. rewrite with_sheets_same. reflexivity. }
  rewrite (bind_step _ _ _ _ _ E1).
  assert (E2 : ws_name w = (Returns (sheet_title w), w)) by reflexivity.
  rewrite (bind_step _ _ _ _ _ E2).
  unfold catch, worksheet, api. rewrite R. unfold current_grid in F. rewrite F.
  rewrite with_sheets_same. reflexivity.
Qed.

Lemma open_ws_creates w :
  reachable (store w) = true -> current_grid w = None ->
  exists w', open_ws w = (Returns (sheet_title w), w') /\ serves w' new_sheet /\
             config w' = config w /\ session w' = session w.
Proof.
  intros R F. unfold open_ws.
  assert (E1 : open_by_key w = (Returns tt, w)).
  { unfold open_by_key, api. rewrite R. rewrite with_sheets_same. reflexivity. }
  rewrite (bind_step _ _ _ _ _ E1).
  assert (E2 : ws_name w = (Returns (sheet_title w), w)) by reflexivity.
  rewrite (bind_step _ _ _ _ _ E2).
  unfold current_grid in F.
  unfold catch. unfold worksheet at 1. unfold api at 1. rewrite R, F.
  rewrite with_sheets_same.
  set (w1 := with_sheets w (sheets (store w) ++ [(sheet_title w, repeat (repeat Blank 6) 10)])).
  assert (E3 : add_worksheet (sheet_title w) 10 6 w = (Returns (sheet_title w), w1)).
  { unfold add_worksheet, api. rewrite R, F. reflexivity. }
  rewrite (bind_step _ _ _ _ _ E3).
  assert (S1 : serves w1 (repeat (repeat Blank 6) 10)).
  { split; [exact R|]. unfold current_grid. simpl. apply find_sheet_added. exact F. }
  assert (T1 : sheet_title w1 = sheet_title w) by reflexivity.
  rewrite <- T1. rewrite (bind_step _ _ _ _ _ (update_serves w1 _ A1_D1 [map Text HEADER] S1)).
  eexists. split; [reflexivity|]. split; [|split; reflexivity].
  exact (serves_with_sheets w1 _ _ S1).
Qed.

Lemma open_ws_unreachable w :
  reachable (store w) = false -> open_ws w = (Raises TransportError, w).
Proof.
  intros R. unfold open_ws. apply bind_raises. unfold open_by_key, api. rewrite R. reflexivity.
Qed.

Lemma firstn_overwritten g rec :
  firstn 2 (overwritten g rec) =
  [overwrite_prefix (map Text HEADER) (nth 0 g []);
   overwrite_prefix (snapshot_cells rec) (nth 1 g [])].
Proof. destruct g as [|r0 [|r1 g]]; reflexivity. Qed.

Lemma read_range_overwritten g rec :
  read_range format_number pad_values A1_D2 (overwritten g rec) =
  [HEADER; [timestamp_utc rec; format_number (current_assets rec);
            format_number (current_liabilities rec); format_number (inventory rec)]].
Proof.
  unfold read_range, sent_values.
  change (skipn (range_top A1_D2) (overwritten g rec)) with (overwritten g rec).
  change (range_height A1_D2) with 2%nat. rewrite firstn_overwritten.
  destruct pad_values; reflexivity.
Qed.

Lemma write_single_row_returns rec w :
  reachable (store w) = true ->
  exists w1 g, write_single_row rec w = (Returns tt, w1) /\ serves w1 (overwritten g rec) /\
               config w1 = config w /\ session w1 = session w.
Proof.
  intros R. unfold write_single_row.
  assert (O : exists w0 g, open_ws w = (Returns (sheet_title w0), w0) /\ serves w0 g /\
                           config w0 = config w /\ session w0 = session w).
  { destruct (current_grid w) as [g|] eqn:F.
    - exists w, g. split; [apply (open_ws_serves w g); split; assumption|].
      split; [split; assumption | split; reflexivity].
    - destruct (open_ws_creates w R F) as [w' [E [S [C N]]]].
      exists w', new_sheet. assert (T : sheet_title w' = sheet_title w).
      { unfold sheet_title. rewrite C. reflexivity. }
      rewrite T. auto. }
  destruct O as [w0 [g [E [S [C N]]]]].
  rewrite (bind_step _ _ _ _ _ E).
  rewrite (bind_step _ _ _ _ _ (update_serves w0 g A1_D1 [map Text HEADER] S)).
  pose proof (serves_with_sheets w0 g (write_rows 0 [map Text HEADER] g) S) as S1.
  set (w1 := with_sheets w0 _) in *.
  change (sheet_title w0) with (sheet_title w1).
  rewrite (update_serves w1 _ A2_D2 [snapshot_cells rec] S1).
  eexists. exists g. split; [reflexivity|].
  split; [exact (serves_with_sheets w1 _ _ S1) | split; assumption].
Qed.

Lemma read_latest_serves w g :
  serves w g ->
  read_latest format_number pad_values w
  = (latest_of (read_range format_number pad_values A1_D2 g), w).
Proof.
  intros S. unfold read_latest.
  rewrite (bind_step _ _ _ _ _ (open_ws_serves w g S)).
  rewrite (bind_step _ _ _ _ _ (get_values_serves w g A1_D2 S)).
  reflexivity.
Qed.

Lemma read_latest_unreachable w :
  reachable (store w) = false ->
  read_latest format_number pad_values w = (Raises TransportError, w).
Proof. intros R. unfold read_latest. apply bind_raises. apply open_ws_unreachable, R. Qed.

Lemma read_range_new_sheet :
  read_range format_number pad_values A1_D2 new_sheet = [HEADER].
Proof. unfold read_range. destruct pad_values; reflexivity. Qed.

Lemma read_latest_creates w :
  reachable (store w) = true -> current_grid w = None ->
  exists w', read_latest format_number pad_values w = (Returns None, w') /\
             serves w' new_sheet /\ config w' = config w /\ session w' = session w.
Proof.
  intros R F. destruct (open_ws_creates w R F) as [w' [E [S [C N]]]].
  exists w'. split; [|auto]. unfold read_latest.
  rewrite (bind_step _ _ _ _ _ E).
  assert (T : sheet_title w = sheet_title w') by (unfold sheet_title; rewrite C; reflexivity).
  rewrite T. rewrite (bind_step _ _ _ _ _ (get_values_serves w' _ A1_D2 S)).
  rewrite read_range_new_sheet. reflexivity.
Qed.

(** C3: a snapshot written with [write_single_row] is what [read_latest]
    then returns: one row under the fixed header, with the timestamp as
    written and each amount as the service renders the number. *)
Theorem write_then_read (rec : record) (w : world) :
  reachable (store w) = true ->
  exists w1,
    write_single_row rec w = (Returns tt, w1) /\
    read_latest format_number pad_values w1 =
      (Returns (Some {| columns := HEADER;
                        rows := [[timestamp_utc rec;
                                  format_number (current_assets rec);
                                  format_number (current_liabilities rec);
                                  format_number (inventory rec)]] |}), w1).
Proof.
  intros R. destruct (write_single_row_returns rec w R) as [w1 [g [E [S _]]]].
  exists w1. split; [exact E|].
  rewrite (read_latest_serves w1 _ S), read_range_overwritten. reflexivity.
Qed.

(** C8: reading twice with no write in between returns the same result,
    and the second read leaves the store as the first one left it. *)
Theorem read_latest_twice (w : world) :
  read_latest format_number pad_values (snd (read_latest format_number pad_values w)) =
  (fst (read_latest format_number pad_values w), snd (read_latest format_number pad_values w)).
Proof.
  destruct (reachable (store w)) eqn:R.
  - destruct (current_grid w) as [g|] eqn:F.
    + assert (S : serves w g) by (split; assumption).
      rewrite (read_latest_serves w g S). simpl. apply (read_latest_serves w g S).
    + destruct (read_latest_creates w R F) as [w' [E [S _]]].
      rewrite E. simpl. rewrite (read_latest_serves w' _ S), read_range_new_sheet.
      reflexivity.
  - rewrite (read_latest_unreachable w R). simpl. apply read_latest_unreachable, R.
Qed.

Lemma latest_of_absent (data : list (list string)) :
  latest_of data = Returns None <->
  (List.length data < 2 \/ List.length (nth 1 data []) < 4)%nat.
Proof.
  unfold latest_of.
  destruct (Nat.ltb_spec (List.length data) 2) as [A|A];
    destruct (Nat.ltb_spec (List.length (nth 1 data [])) 4) as [B|B]; simpl.
  - split; auto.
  - split; auto.
  - split; auto.
  - split.
    + destruct (mk_frame [nth 1 data []] (nth 0 data [])); discriminate.
    + intros [C|C]; lia.
Qed.

Lemma sent_values_cases (g : grid) :
  (populated_width (nth 1 g []) = 0%nat /\
   (List.length (sent_values format_number A1_D2 g) < 2)%nat) \/
  (populated_width (nth 1 g []) <> 0%nat /\
   List.length (sent_values format_number A1_D2 g) = 2%nat /\
   List.length (nth 1 (sent_values format_number A1_D2 g) [])
     = populated_width (nth 1 g []) /\
   List.length (nth 0 (sent_values format_number A1_D2 g) [])
     = populated_width (nth 0 g [])).
Proof.
  unfold sent_values, populated_width.
  change (skipn (range_top A1_D2) g) with g.
  change (range_width A1_D2) with 4%nat. change (range_height A1_D2) with 2%nat.
  destruct g as [|r0 [|r1 g]].
  - left. simpl. split; [reflexivity | lia].
  - left. change (firstn 2 [r0]) with [r0]. cbn [map nth].
    set (a := map (render format_number) _).
    cbn [drop_trailing]. destruct (nonempty a); simpl; split; (reflexivity || lia).
  - change (firstn 2 (r0 :: r1 :: g)) with [r0; r1]. cbn [map nth].
    rewrite <- (length_map (render format_number) (drop_trailing populated (firstn 4 r1))).
    rewrite <- (length_map (render format_number) (drop_trailing populated (firstn 4 r0))).
    set (a := map (render format_number) (drop_trailing populated (firstn 4 r0))).
    set (b := map (render format_number) (drop_trailing populated (firstn 4 r1))).
    cbn [drop_trailing]. destruct b as [|c cs].
    + left. cbn [nonempty]. destruct (nonempty a); simpl; split; (reflexivity || lia).
    + right. cbn [nonempty nth List.length]. repeat split. discriminate.
Qed.

Lemma fill_gaps_second_row (values : list (list string)) :
  List.length values = 2%nat ->
  List.length (nth 1 (fill_gaps values) [])
  = Nat.max (List.length (nth 0 values [])) (List.length (nth 1 values [])).
Proof.
  destruct values as [|a [|b [|c l]]]; intros L; simpl in L; try discriminate L.
  unfold fill_gaps. cbn [map list_max fold_right nth].
  rewrite length_app, repeat_length. lia.
Qed.

Lemma length_fill_gaps (values : list (list string)) :
  List.length (fill_gaps values) = List.length values.
Proof. unfold fill_gaps. apply length_map. Qed.

Lemma length_read_range (r : a1_range) (g : grid) :
  List.length (read_range format_number pad_values r g)
  = List.length (sent_values format_number r g).
Proof. unfold read_range. destruct pad_values; [apply length_fill_gaps | reflexivity]. Qed.

Lemma read_range_blank_row (g : grid) :
  populated_width (nth 1 g []) = 0%nat ->
  latest_of (read_range format_number pad_values A1_D2 g) = Returns None.
Proof.
  intros Z. apply latest_of_absent. left. rewrite length_read_range.
  destruct (sent_values_cases g) as [[_ L]|[N _]]; [exact L | contradiction].
Qed.

Lemma sent_values_absent (g : grid) :
  latest_of (sent_values format_number A1_D2 g) = Returns None <->
  (populated_width (nth 1 g []) < 4)%nat.
Proof.
  rewrite latest_of_absent.
  destruct (sent_values_cases g) as [[Z L]|[N [L [W _]]]].
  - split; intros; [lia | left; exact L].
  - rewrite W, L. split; [intros [C|C]; lia | intros C; right; exact C].
Qed.

Lemma read_latest_opened w :
  reachable (store w) = true ->
  fst (read_latest format_number pad_values w) =
  latest_of (read_range format_number pad_values A1_D2 (opened_grid w)).
Proof.
  intros R. unfold opened_grid. destruct (current_grid w) as [g|] eqn:F.
  - rewrite (read_latest_serves w g (conj R F)). reflexivity.
  - destruct (read_latest_creates w R F) as [w' [E _]]. rewrite E.
    rewrite read_range_new_sheet. reflexivity.
Qed.

Lemma read_range_absent (g : grid) :
  latest_of (read_range format_number pad_values A1_D2 g) = Returns None <->
  (populated_width (nth 1 g []) = 0 \/
   populated_width (nth 1 g []) < 4 /\
   (pad_values = false \/ populated_width (nth 0 g []) < 4))%nat.
Proof.
  rewrite latest_of_absent, length_read_range. unfold read_range.
  destruct (sent_values_cases g) as [[Z L]|[N [L [W1 W0]]]].
  - split; intros; [left; exact Z | left; exact L].
  - destruct pad_values.
    + rewrite (fill_gaps_second_row _ L), W1, W0, L.
      split; [intros [C|C]; [lia | right; split; [lia | right; lia]]|].
      intros [C|[C [D|D]]]; [contradiction | discriminate D | right; lia].
    + rewrite W1, L.
      split; [intros [C|C]; [lia | right; split; [exact C | left; reflexivity]]|].
      intros [C|[C _]]; [contradiction | right; exact C].
Qed.

(** C4, as amended: when the service answers, [read_latest] returns
    [None], and does not raise, exactly when the values it gets hold no
    second row or a second row of fewer than four columns.  It does so when
    row 2 is blank, as on a sheet with the header only.  On the sheet these
    are the cases where row 2 is blank or ends before column D and, where
    the library pads the rows to a common length, row 1 ends before column
    D too; how many cells of row 2 are populated does not decide it. *)
Theorem read_latest_absent (w : world) :
  reachable (store w) = true ->
  (fst (read_latest format_number pad_values w) = Returns None <->
   (List.length (read_range format_number pad_values A1_D2 (opened_grid w)) < 2 \/
    List.length (nth 1 (read_range format_number pad_values A1_D2 (opened_grid w)) [])
      < 4)%nat) /\
  (populated_width (nth 1 (opened_grid w) []) = 0%nat ->
   fst (read_latest format_number pad_values w) = Returns None) /\
  (fst (read_latest format_number pad_values w) = Returns None <->
   (populated_width (nth 1 (opened_grid w) []) = 0 \/
    populated_width (nth 1 (opened_grid w) []) < 4 /\
    (pad_values = false \/ populated_width (nth 0 (opened_grid w) []) < 4))%nat).
Proof.
  intros R. rewrite (read_latest_opened w R).
  split; [apply latest_of_absent|].
  split; [apply read_range_blank_row | apply read_range_absent].
Qed.

(** ** One rerun *)

Lemma pure_ret {A : Type} (a : A) : pure_io (ret a).
Proof. intros w. reflexivity. Qed.

Lemma pure_raise {A : Type} (e : exn) : pure_io (@raise A e).
Proof. intros w. reflexivity. Qed.

Lemma pure_lift {A : Type} (o : outcome A) : pure_io (lift o).
Proof. intros w. reflexivity. Qed.

Lemma pure_bind {A B : Type} (m : io A) (k : A -> io B) :
  pure_io m -> (forall a, pure_io (k a)) -> pure_io (bind m k).
Proof.
  intros Pm Pk w. unfold bind. specialize (Pm w).
  destruct (m w) as [[a|e] w1]; simpl in Pm; subst w1; [apply Pk | reflexivity].
Qed.

Lemma snd_bind_pure {A B : Type} (m : io A) (k : A -> io B) w o :
  m w = (o, w) -> (forall a, pure_io (k a)) -> snd (bind m k w) = w.
Proof.
  intros E Pk. unfold bind. rewrite E. destruct o as [a|e]; [apply Pk | reflexivity].
Qed.

Lemma pure_show_latest latest : pure_io (show_latest parse_float latest).
Proof.
  unfold show_latest. destruct latest as [df|]; [|apply pure_ret].
  destruct (negb (empty df)); [|apply pure_ret].
  repeat (apply pure_bind; [apply pure_lift | intro]). apply pure_ret.
Qed.

Lemma pure_st_progress value : pure_io (st_progress value).
Proof.
  unfold st_progress. destruct (Qle_bool 0 value && Qle_bool value 1);
    [apply pure_ret | apply pure_raise].
Qed.

Lemma pure_render_tail (later : Q) (latest : option DataFrame) :
  pure_io (p <- show_latest parse_float latest ;;
           last <- get_last ;;
           st_progress (progress_of (remaining_at later last)) ;;;
           ret {| latest_panel := p; remaining := remaining_at later last;
                  progress := progress_of (remaining_at later last) |}).
Proof.
  apply pure_bind; [apply pure_show_latest | intro p].
  apply pure_bind; [intros w; reflexivity | intro last].
  apply pure_bind; [apply pure_st_progress | intro]. apply pure_ret.
Qed.

Lemma serves_with_last w g ts : serves w g -> serves (with_last w ts) g.
Proof. intros S. exact S. Qed.

(** The rerun after the test of line 91. *)
Lemma tick_eq (i : inputs G) (w : world) :
  tick format_number parse_float pad_values i w =
  ((if manual i || due_at (now i) (last_generate_ts (session w)) then
      write_single_row (fst (generate_plausible_values (rng i) (stamp i))) ;;;
      set_last (now i)
    else ret tt) ;;;
   latest <- read_latest format_number pad_values ;;
   p <- show_latest parse_float latest ;;
   last <- get_last ;;
   st_progress (progress_of (remaining_at (later i) last)) ;;;
   ret {| latest_panel := p; remaining := remaining_at (later i) last;
          progress := progress_of (remaining_at (later i) last) |}) w.
Proof. unfold tick. destruct (manual i); reflexivity. Qed.

(** C6: on a rerun where the button was pressed, whatever the clock
    says, or where the gate is open, a fresh snapshot is written over
    row 2 and the time of the last generation becomes [now]; nothing
    later in the rerun changes the store or the session again. *)
Theorem generation_path (i : inputs G) (w : world) :
  manual i = true \/ due_at (now i) (last_generate_ts (session w)) = true ->
  reachable (store w) = true ->
  exists w1 g,
    write_single_row (fst (generate_plausible_values (rng i) (stamp i))) w
      = (Returns tt, w1) /\
    snd (tick format_number parse_float pad_values i w) = with_last w1 (now i) /\
    last_generate_ts (session (snd (tick format_number parse_float pad_values i w))) = now i /\
    current_grid (snd (tick format_number parse_float pad_values i w))
      = Some (overwritten g (fst (generate_plausible_values (rng i) (stamp i)))).
Proof.
  intros C R.
  assert (C' : manual i || due_at (now i) (last_generate_ts (session w)) = true).
  { apply orb_true_iff. exact C. }
  set (rec := fst (generate_plausible_values (rng i) (stamp i))).
  destruct (write_single_row_returns rec w R) as [w1 [g [E [S _]]]].
  exists w1, g. split; [exact E|].
  assert (T : snd (tick format_number parse_float pad_values i w) = with_last w1 (now i)).
  { rewrite tick_eq, C'. fold rec.
    assert (E2 : (write_single_row rec ;;; set_last (now i)) w
                 = (Returns tt, with_last w1 (now i))).
    { rewrite (bind_step _ _ _ _ _ E). reflexivity. }
    rewrite (bind_step _ _ _ _ _ E2).
    apply (snd_bind_pure _ _ _ _
             (read_latest_serves (with_last w1 (now i)) _ (serves_with_last w1 _ (now i) S))).
    intros latest. apply pure_render_tail. }
  rewrite T. split; [reflexivity|]. split; [reflexivity|]. apply S.
Qed.

(** X7: when a rerun is to generate and the service cannot be reached, it
    stops with the transport's error and the world is as before: the timer
    has not moved, so the next rerun tries again. *)
Lemma generation_unreachable (i : inputs G) (w : world) :
  manual i = true \/ due_at (now i) (last_generate_ts (session w)) = true ->
  reachable (store w) = false ->
  tick format_number parse_float pad_values i w = (Raises TransportError, w).
Proof.
  intros C R.
  assert (C' : manual i || due_at (now i) (last_generate_ts (session w)) = true).
  { apply orb_true_iff. exact C. }
  rewrite tick_eq, C'. apply bind_raises. apply bind_raises.
  unfold write_single_row. apply bind_raises. apply open_ws_unreachable, R.
Qed.

Lemma session_read_latest (w : world) :
  session (snd (read_latest format_number pad_values w)) = session w.
Proof.
  destruct (reachable (store w)) eqn:R.
  - destruct (current_grid w) as [g|] eqn:F.
    + rewrite (read_latest_serves w g (conj R F)). reflexivity.
    + destruct (read_latest_creates w R F) as [w' [E [_ [_ N]]]]. rewrite E. exact N.
  - rewrite (read_latest_unreachable w R). reflexivity.
Qed.

(** X6: a rerun with the button not pressed and the gate closed writes
    nothing: it leaves the world as [read_latest] alone would, and the
    session as it was. *)
Lemma idle_path (i : inputs G) (w : world) :
  manual i = false -> due_at (now i) (last_generate_ts (session w)) = false ->
  snd (tick format_number parse_float pad_values i w)
    = snd (read_latest format_number pad_values w) /\
  session (snd (tick format_number parse_float pad_values i w)) = session w.
Proof.
  intros M D. rewrite tick_eq, M, D. simpl orb. cbv iota.
  assert (E0 : ret tt w = (Returns tt, w)) by reflexivity.
  rewrite (bind_step _ _ _ _ _ E0).
  assert (E : snd ((latest <- read_latest format_number pad_values ;;
                    p <- show_latest parse_float latest ;;
                    last <- get_last ;;
                    st_progress (progress_of (remaining_at (later i) last)) ;;;
                    ret {| latest_panel := p; remaining := remaining_at (later i) last;
                           progress := progress_of (remaining_at (later i) last) |}) w)
               = snd (read_latest format_number pad_values w)).
  { unfold bind at 1.
    destruct (read_latest format_number pad_values w) as [[l|e] w1]; [|reflexivity].
    apply pure_render_tail. }
  rewrite E. split; [reflexivity | apply session_read_latest].
Qed.

(** C9: whenever a rerun gets to draw its progress bar, the value drawn is
    [1 - remaining / INTERVAL_SECONDS] in float arithmetic, for the
    countdown [remaining = max(0, INTERVAL_SECONDS - int(elapsed))] shown
    beside it; the value lies between 0 and 1. *)
Theorem progress_shown (i : inputs G) (w w' : world) (v : view) :
  tick format_number parse_float pad_values i w = (Returns v, w') ->
  progress v = fsub 1 (fdiv (inject_Z (remaining v)) (inject_Z INTERVAL_SECONDS)) /\
  remaining v =
    Py.max_int 0 (INTERVAL_SECONDS
                  - Py.int (fsub (later i) (last_generate_ts (session w')))) /\
  0 <= progress v <= 1.
Proof.
  intros E. unfold tick in E.
  apply bind_returns in E. destruct E as [d [w1 [_ E]]].
  apply bind_returns in E. destruct E as [u [w2 [_ E]]].
  apply bind_returns in E. destruct E as [latest [w3 [_ E]]].
  apply bind_returns in E. destruct E as [p [w4 [_ E]]].
  apply bind_returns in E. destruct E as [last [w5 [L E]]].
  apply bind_returns in E. destruct E as [u' [w6 [P E]]].
  unfold get_last in L. inversion L; subst last w5. clear L.
  unfold ret in E. inversion E; subst v w'. clear E. simpl.
  unfold st_progress in P.
  destruct (Qle_bool 0 _ && Qle_bool _ 1) eqn:B; [|discriminate P].
  inversion P; subst w6. apply andb_true_iff in B. destruct B as [B0 B1].
  apply Qle_bool_iff in B0. apply Qle_bool_iff in B1.
  split; [reflexivity|]. split; [reflexivity|]. split; assumption.
Qed.

Lemma progress_in_range (later last : Q) :
  last <= later ->
  (0 <= remaining_at later last <= INTERVAL_SECONDS)%Z /\
  0 <= progress_of (remaining_at later last) <= 1.
Proof.
  intros L. unfold remaining_at.
  assert (E0 : 0 <= fsub later last).
  { unfold fsub. change 0 with (rnd 0). apply rnd_le. lra. }
  assert (I0 : (0 <= Py.int (fsub later last))%Z).
  { unfold Py.int. apply Qle_bool_iff in E0. rewrite E0.
    rewrite <- (Qfloor_Z 0). apply Qfloor_resp_le. apply Qle_bool_iff. exact E0. }
  set (k := Py.int (fsub later last)) in *.
  assert (R : (0 <= Py.max_int 0 (INTERVAL_SECONDS - k) <= INTERVAL_SECONDS)%Z).
  { unfold Py.max_int, INTERVAL_SECONDS.
    destruct (Z.ltb_spec 0 (30 - k)); lia. }
  split; [exact R|].
  set (r := Py.max_int 0 (INTERVAL_SECONDS - k)) in *.
  unfold progress_of. change (INTERVAL_SECONDS =? 0)%Z with false. cbv iota.
  destruct R as [R0 R1]. rewrite Zle_Qle in R0, R1.
  change (inject_Z 0) with 0 in R0. change (inject_Z INTERVAL_SECONDS) with 30 in *.
  assert (D0 : 0 <= fdiv (inject_Z r) 30).
  { unfold fdiv. change 0 with (rnd 0). apply rnd_le. apply Qle_shift_div_l; lra. }
  assert (D1 : fdiv (inject_Z r) 30 <= 1).
  { unfold fdiv. apply Qle_trans with (rnd 1); [|by_computation].
    apply rnd_le. apply Qle_shift_div_r; lra. }
  unfold fsub. split.
  - change 0 with (rnd 0). apply rnd_le. lra.
  - apply Qle_trans with (rnd 1); [|by_computation]. apply rnd_le. lra.
Qed.

Lemma show_latest_written (rec : record) (w : world) :
  (forall x, parse_float (format_number x) <> None) ->
  exists ca cl inv,
    show_latest parse_float
      (Some {| columns := HEADER;
               rows := [[timestamp_utc rec;
                         format_number (current_assets rec);
                         format_number (current_liabilities rec);
                         format_number (inventory rec)]] |}) w
    = (Returns (Metrics ca cl inv (timestamp_utc rec)), w).
Proof.
  intros P.
  destruct (parse_float (format_number (current_assets rec))) as [ca|] eqn:E1;
    [|exfalso; exact (P _ E1)].
  destruct (parse_float (format_number (current_liabilities rec))) as [cl|] eqn:E2;
    [|exfalso; exact (P _ E2)].
  destruct (parse_float (format_number (inventory rec))) as [inv|] eqn:E3;
    [|exfalso; exact (P _ E3)].
  exists ca, cl, inv. unfold show_latest, bind, lift, ret. simpl.
  rewrite E1, E2, E3. reflexivity.
Qed.

(** X9: a rerun that generates runs to its end, the progress bar drawn,
    whenever the service answers, the numbers the service renders can be
    read back and the clock has not gone backwards. *)
Lemma generation_returns (i : inputs G) (w : world) :
  manual i = true \/ due_at (now i) (last_generate_ts (session w)) = true ->
  reachable (store w) = true ->
  (forall x, parse_float (format_number x) <> None) ->
  now i <= later i ->
  exists v w', tick format_number parse_float pad_values i w = (Returns v, w').
Proof.
  intros C R P L.
  assert (C' : manual i || due_at (now i) (last_generate_ts (session w)) = true).
  { apply orb_true_iff. exact C. }
  set (rec := fst (generate_plausible_values (rng i) (stamp i))).
  destruct (write_single_row_returns rec w R) as [w1 [g [E1 [S _]]]].
  rewrite tick_eq, C'. fold rec.
  assert (Ew : (write_single_row rec ;;; set_last (now i)) w
               = (Returns tt, with_last w1 (now i))).
  { rewrite (bind_step _ _ _ _ _ E1). reflexivity. }
  rewrite (bind_step _ _ _ _ _ Ew).
  assert (Er : read_latest format_number pad_values (with_last w1 (now i))
               = (Returns (Some {| columns := HEADER;
                                   rows := [[timestamp_utc rec;
                                             format_number (current_assets rec);
                                             format_number (current_liabilities rec);
                                             format_number (inventory rec)]] |}),
                  with_last w1 (now i))).
  { rewrite (read_latest_serves (with_last w1 (now i)) _
               (serves_with_last w1 _ (now i) S)).
    rewrite read_range_overwritten. reflexivity. }
  rewrite (bind_step _ _ _ _ _ Er).
  destruct (show_latest_written rec (with_last w1 (now i)) P) as [ca [cl [inv Es]]].
  rewrite (bind_step _ _ _ _ _ Es).
  destruct (progress_in_range (later i) (now i) L) as [_ [P0 P1]].
  assert (Eg : get_last (with_last w1 (now i)) = (Returns (now i), with_last w1 (now i)))
    by reflexivity.
  rewrite (bind_step _ _ _ _ _ Eg).
  assert (Ep : st_progress (progress_of (remaining_at (later i) (now i)))
                 (with_last w1 (now i)) = (Returns tt, with_last w1 (now i))).
  { unfold st_progress. apply Qle_bool_iff in P0. apply Qle_bool_iff in P1.
    rewrite P0, P1. reflexivity. }
  rewrite (bind_step _ _ _ _ _ Ep).
  eexists. eexists. reflexivity.
Qed.

End PageFacts.

(** ** The timing gate *)

(** C2: the gate is open exactly when the float difference
    [now - last_generate_ts] is at least [INTERVAL_SECONDS], which is 30:
    closed below, open at the boundary; it reads the session and changes
    nothing.  With a last generation at 0 it is open at 30, and with one
    at 100 it is closed at 120. *)
Theorem due_iff (now : Q) (w : world) :
  due now w = (Returns (due_at now (last_generate_ts (session w))), w) /\
  (due_at now (last_generate_ts (session w)) = true <->
   inject_Z INTERVAL_SECONDS <= fsub now (last_generate_ts (session w))) /\
  (due_at now (last_generate_ts (session w)) = false <->
   fsub now (last_generate_ts (session w)) < inject_Z INTERVAL_SECONDS) /\
  INTERVAL_SECONDS = 30%Z /\
  due_at 30 0 = true /\
  due_at 120 100 = false.
Proof.
  split; [reflexivity|]. unfold due_at.
  split; [apply Qle_bool_iff|].
  split.
  - split.
    + apply Qle_bool_false.
    + intros L. destruct (Qle_bool _ _) eqn:E; [|reflexivity].
      apply Qle_bool_iff in E. exfalso. lra.
  - split; [reflexivity|]. split; vm_compute; reflexivity.
Qed.

(** A real difference of at least 30 seconds opens the gate, and so does
    none below 30 that is itself a float. *)
Lemma due_at_exact (now last : Q) :
  (30 <= now - last -> due_at now last = true) /\
  (is_float (now - last) -> (due_at now last = true <-> 30 <= now - last)).
Proof.
  unfold due_at, fsub. split.
  - intros L. apply Qle_bool_iff. apply Qle_trans with (rnd 30).
    + apply Qle_bool_iff. vm_compute. reflexivity.
    + apply rnd_le. exact L.
  - intros F. unfold is_float in F. rewrite Qle_bool_iff, F. reflexivity.
Qed.


(** ** The claims on an example store *)

Lemma write_then_read_witness :
  reachable (store Plain.fresh) = true /\
  exists w1,
    write_single_row Plain.sample Plain.fresh = (Returns tt, w1) /\
    read_latest Plain.format_number true w1 =
      (Returns (Some {| columns := HEADER;
                        rows := [[timestamp_utc Plain.sample;
                                  Plain.format_number (current_assets Plain.sample);
                                  Plain.format_number (current_liabilities Plain.sample);
                                  Plain.format_number (inventory Plain.sample)]] |}), w1).
Proof.
  split; [reflexivity|].
  exact (write_then_read Plain.format_number true Plain.sample Plain.fresh eq_refl).
Defined.

Example sample_as_read :
  [Plain.format_number (current_assets Plain.sample);
   Plain.format_number (current_liabilities Plain.sample);
   Plain.format_number (inventory Plain.sample)]
  = ["147965.27"; "99999.01"; "50000.50"]%string.
Proof. vm_compute. reflexivity. Qed.

Lemma read_latest_absent_witness :
  reachable (store Plain.header_only) = true /\
  fst (read_latest Plain.format_number true Plain.header_only) = Returns None.
Proof.
  split; [reflexivity|].
  exact (proj1 (proj2 (read_latest_absent Plain.format_number true Plain.header_only
                         eq_refl)) eq_refl).
Defined.

(** C4, counterexample: a row 2 with one populated cell, in column D, is
    returned as a frame whether the rows are padded or not; where they are
    padded so is a row 2 with one populated cell in column A, which is
    populated no further than that column. *)
Lemma read_latest_absent_counterexample :
  ~ (fst (read_latest Plain.format_number false Plain.sparse) = Returns None <->
     (populated_count (nth 1 (opened_grid Plain.sparse) []) < 4)%nat) /\
  ~ (fst (read_latest Plain.format_number true Plain.sparse) = Returns None <->
     (populated_count (nth 1 (opened_grid Plain.sparse) []) < 4)%nat) /\
  ~ (fst (read_latest Plain.format_number true Plain.short) = Returns None <->
     (populated_count (nth 1 (opened_grid Plain.short) []) < 4)%nat) /\
  ~ (fst (read_latest Plain.format_number true Plain.short) = Returns None <->
     (populated_width (nth 1 (opened_grid Plain.short) []) < 4)%nat).
Proof.
  repeat split; intros [_ A];
    (assert (E : Returns (Some _) = @Returns (option DataFrame) None)
       by (apply A; vm_compute; lia));
    discriminate E.
Qed.

(** Scenario D: a read of a sheet with the header only, and a read of a
    service without the worksheet, return [None]. *)
Example scenario_d :
  read_latest Plain.format_number true Plain.header_only = (Returns None, Plain.header_only) /\
  fst (read_latest Plain.format_number true Plain.fresh) = Returns None.
Proof. split; reflexivity. Qed.

(** A row populated in column D only is returned with four columns: it
    is not absent. *)
Example sparse_row_is_present :
  fst (read_latest Plain.format_number false
         (with_sheets Plain.fresh
            [("latest"%string, [map Text HEADER; [Blank; Blank; Blank; Number 1]])]))
  = Returns (Some {| columns := HEADER; rows := [[""; ""; ""; "1.00"]%string] |}).
Proof. vm_compute. reflexivity. Qed.

(** A row populated in column A only is absent where the rows come as the
    service sends them, and present where the library pads them. *)
Example short_row :
  fst (read_latest Plain.format_number false
         (with_sheets Plain.fresh [("latest"%string, [map Text HEADER; [Text "t"]])]))
  = Returns None /\
  fst (read_latest Plain.format_number true
         (with_sheets Plain.fresh [("latest"%string, [map Text HEADER; [Text "t"]])]))
  = Returns (Some {| columns := HEADER; rows := [["t"; ""; ""; ""]%string] |}).
Proof. split; vm_compute; reflexivity. Qed.

(** Without its header a full row makes pandas raise where the rows are
    not padded. *)
Example headerless_row_raises :
  fst (read_latest Plain.format_number false
         (with_sheets Plain.fresh
            [("latest"%string, [[]; [Text "t"; Number 1; Number 2; Number 3]])]))
  = Raises ValueError.
Proof. vm_compute. reflexivity. Qed.

Lemma generation_path_witness :
  manual Plain.pressed = true /\
  due_at (now Plain.pressed) (last_generate_ts (session Plain.header_only)) = false /\
  reachable (store Plain.header_only) = true /\
  last_generate_ts
    (session (snd (tick Plain.format_number Plain.parse_float true
                     Plain.pressed Plain.header_only)))
  = now Plain.pressed.
Proof.
  split; [reflexivity|]. split; [vm_compute; reflexivity|]. split; [reflexivity|].
  destruct (generation_path Plain.format_number Plain.parse_float true
              Plain.pressed Plain.header_only (or_introl eq_refl) eq_refl)
    as [w1 [g [_ [_ [L _]]]]].
  exact L.
Defined.

Lemma progress_shown_witness :
  exists v w',
    tick Plain.format_number Plain.parse_float true Plain.unpressed Plain.fresh
      = (Returns v, w') /\
    progress v = fsub 1 (fdiv (inject_Z (remaining v)) (inject_Z INTERVAL_SECONDS)).
Proof.
  destruct (tick Plain.format_number Plain.parse_float true Plain.unpressed Plain.fresh)
    as [[v|e] w'] eqn:E.
  - exists v, w'. split; [reflexivity|].
    exact (proj1 (progress_shown Plain.format_number Plain.parse_float true
                    Plain.unpressed Plain.fresh w' v E)).
  - exfalso. vm_compute in E. discriminate E.
Defined.

(** The first rerun of a session: the gate is open, a snapshot is written
    and shown, one second later 29 seconds remain. *)
Example first_rerun :
  exists ca cl inv w',
    tick Plain.format_number Plain.parse_float true Plain.unpressed Plain.fresh
      = (Returns {| latest_panel := Metrics ca cl inv "2026-01-01T00:00:00+00:00";
                    remaining := 29;
                    progress := fsub 1 (fdiv 29 30) |}, w').
Proof. do 4 eexists. vm_compute. reflexivity. Qed.

(** * Further properties of the page *)

(** ** The worksheet list *)

Lemma put_sheet_twice title g1 g2 s :
  put_sheet title g2 (put_sheet title g1 s) = put_sheet title g2 s.
Proof.
  induction s as [|[t g0] s IH]; simpl.
  - rewrite String.eqb_refl. reflexivity.
  - destruct (String.eqb t title) eqn:E; simpl; rewrite E; [reflexivity|].
    rewrite IH. reflexivity.
Qed.

Lemma put_sheet_missing title g s :
  find_sheet title s = None -> put_sheet title g s = (s ++ [(title, g)])%list.
Proof.
  induction s as [|[t g0] s IH]; simpl; intros N; [reflexivity|].
  destruct (String.eqb t title); [discriminate|]. rewrite (IH N). reflexivity.
Qed.

Lemma put_sheet_added title g b s :
  find_sheet title s = None ->
  put_sheet title g (s ++ [(title, b)]) = put_sheet title g s.
Proof.
  induction s as [|[t g0] s IH]; simpl; intros N.
  - rewrite String.eqb_refl. reflexivity.
  - destruct (String.eqb t title); [discriminate|]. rewrite (IH N). reflexivity.
Qed.

Lemma find_put_other title other g s :
  other <> title -> find_sheet other (put_sheet title g s) = find_sheet other s.
Proof.
  intros N. induction s as [|[t g0] s IH]; simpl.
  - destruct (String.eqb_spec title other); [congruence | reflexivity].
  - destruct (String.eqb_spec t title) as [E|E]; simpl.
    + subst t. destruct (String.eqb_spec title other); [congruence | reflexivity].
    + destruct (String.eqb t other); [reflexivity | exact IH].
Qed.

(** ** Grids *)

Lemma nth_empty {A : Type} (d : A) (n : nat) : nth n [] d = d.
Proof. destruct n; reflexivity. Qed.

Lemma nth_write_at {A : Type} (d : A) (n : nat) (f : A -> A) (l : list A) (r : nat) :
  nth r (write_at d n f l) d = if Nat.eqb r n then f (nth n l d) else nth r l d.
Proof.
  revert l r. induction n as [|n IH]; intros l r.
  - destruct l as [|x l]; destruct r as [|r]; simpl; try reflexivity.
    apply nth_empty.
  - destruct l as [|x l]; destruct r as [|r]; simpl; try reflexivity.
    + rewrite IH, !nth_empty. reflexivity.
    + apply IH.
Qed.

Lemma nth_overwrite_prefix (values row : list cell) (c : nat) :
  (List.length values <= c)%nat ->
  nth c (overwrite_prefix values row) Blank = nth c row Blank.
Proof.
  intros L. unfold overwrite_prefix. rewrite app_nth2 by exact L.
  rewrite nth_skipn. f_equal. lia.
Qed.

Lemma overwritten_twice (g : grid) (r1 r2 : record) :
  overwritten (overwritten g r1) r2 = overwritten g r2.
Proof. destruct g as [|a [|b g]]; reflexivity. Qed.

Lemma cell_at_overwritten (g : grid) (rec : record) (r c : nat) :
  (2 <= r \/ 4 <= c)%nat -> cell_at (overwritten g rec) r c = cell_at g r c.
Proof.
  intros H. unfold cell_at, overwritten. cbn [write_rows].
  rewrite !nth_write_at.
  destruct (Nat.eqb_spec r 1) as [E1|N1].
  - subst r. cbn [Nat.eqb]. rewrite nth_overwrite_prefix by (simpl; lia). reflexivity.
  - destruct (Nat.eqb_spec r 0) as [E0|N0]; [|reflexivity].
    subst r. rewrite nth_overwrite_prefix by (simpl; lia). reflexivity.
Qed.

(** ** The store helpers, by their effect on the world *)

Lemma stored_twice w g1 g2 : stored (stored w g1) g2 = stored w g2.
Proof.
  unfold stored. destruct w as [c s [r sh]]. unfold with_sheets, sheet_title. simpl.
  rewrite put_sheet_twice. reflexivity.
Qed.

Lemma current_grid_stored w g : current_grid (stored w g) = Some g.
Proof. unfold current_grid, stored. simpl. apply find_put_sheet. Qed.

Lemma serves_stored w g :
  reachable (store w) = true -> serves (stored w g) g.
Proof. intros R. split; [exact R | apply current_grid_stored]. Qed.

Lemma opened_grid_stored w g : opened_grid (stored w g) = g.
Proof. unfold opened_grid. rewrite current_grid_stored. reflexivity. Qed.

Lemma open_ws_world w :
  reachable (store w) = true ->
  open_ws w = (Returns (sheet_title w),
               match current_grid w with Some _ => w | None => stored w new_sheet end).
Proof.
  intros R. destruct (current_grid w) as [g|] eqn:F.
  - apply (open_ws_serves w g). split; assumption.
  - unfold open_ws.
    assert (E1 : open_by_key w = (Returns tt, w)).
    { unfold open_by_key, api. rewrite R, with_sheets_same. reflexivity. }
    rewrite (bind_step _ _ _ _ _ E1).
    assert (E2 : ws_name w = (Returns (sheet_title w), w)) by reflexivity.
    rewrite (bind_step _ _ _ _ _ E2).
    unfold current_grid in F.
    unfold catch. unfold worksheet at 1. unfold api at 1. rewrite R, F, with_sheets_same.
    set (w1 := with_sheets w (sheets (store w) ++ [(sheet_title w, repeat (repeat Blank 6) 10)])).
    assert (E3 : add_worksheet (sheet_title w) 10 6 w = (Returns (sheet_title w), w1)).
    { unfold add_worksheet, api. rewrite R, F. reflexivity. }
    rewrite (bind_step _ _ _ _ _ E3).
    assert (S1 : serves w1 (repeat (repeat Blank 6) 10)).
    { split; [exact R|]. unfold current_grid. simpl. apply find_sheet_added. exact F. }
    change (sheet_title w) with (sheet_title w1) at 1 2.
    rewrite (bind_step _ _ _ _ _ (update_serves w1 _ A1_D1 [map Text HEADER] S1)).
    unfold ret. f_equal. unfold stored, w1, with_sheets. simpl. f_equal. f_equal.
    change (sheet_title _) with (sheet_title w).
    apply put_sheet_added. exact F.
Qed.

Lemma update_stored w g r values :
  serves w g ->
  update (sheet_title w) r values w
  = (Returns tt, stored w (write_rows (range_top r) values g)).
Proof. intros S. apply update_serves. exact S. Qed.

Lemma write_single_row_world rec w :
  reachable (store w) = true ->
  write_single_row rec w = (Returns tt, stored w (overwritten (opened_grid w) rec)).
Proof.
  intros R. unfold write_single_row.
  rewrite (bind_step _ _ _ _ _ (open_ws_world w R)).
  set (w0 := match current_grid w with Some _ => w | None => stored w new_sheet end).
  assert (S0 : serves w0 (opened_grid w)).
  { unfold w0, opened_grid. destruct (current_grid w) as [g|] eqn:F.
    - split; assumption.
    - apply serves_stored, R. }
  assert (W0 : forall g, stored w0 g = stored w g).
  { intros g. unfold w0. destruct (current_grid w); [reflexivity | apply stored_twice]. }
  assert (T0 : sheet_title w = sheet_title w0).
  { unfold w0. destruct (current_grid w); reflexivity. }
  rewrite T0.
  rewrite (bind_step _ _ _ _ _ (update_stored w0 _ A1_D1 [map Text HEADER] S0)).
  set (g1 := write_rows (range_top A1_D1) [map Text HEADER] (opened_grid w)).
  assert (S1 : serves (stored w0 g1) g1) by (apply serves_stored, S0).
  change (sheet_title w0) with (sheet_title (stored w0 g1)).
  rewrite (update_stored (stored w0 g1) g1 A2_D2 [snapshot_cells rec] S1).
  rewrite stored_twice, W0. reflexivity.
Qed.

(** X1: on a service that answers, [open_ws] returns the configured
    worksheet and leaves the session and the configuration alone; a
    worksheet that exists is not touched, not even its header, and a
    missing one is created with the header in its first row and nothing
    else. *)
Theorem open_ws_finds_or_creates (w : world) :
  reachable (store w) = true ->
  fst (open_ws w) = Returns (sheet_title w) /\
  current_grid (snd (open_ws w)) = Some (opened_grid w) /\
  (snd (open_ws w) = w \/
   current_grid w = None /\
   opened_grid w = (map Text HEADER ++ [Blank; Blank]) :: repeat (repeat Blank 6) 9) /\
  session (snd (open_ws w)) = session w /\
  config (snd (open_ws w)) = config w.
Proof.
  intros R. rewrite (open_ws_world w R). unfold opened_grid. simpl.
  destruct (current_grid w) as [g|] eqn:F.
  - repeat split; [exact F | left; reflexivity].
  - repeat split; [apply current_grid_stored | right; split; reflexivity].
Qed.

Lemma open_ws_finds_or_creates_witness :
  reachable (store Plain.fresh) = true /\
  fst (open_ws Plain.fresh) = Returns "latest"%string /\
  current_grid (snd (open_ws Plain.fresh)) = Some new_sheet.
Proof.
  split; [reflexivity|].
  pose proof (open_ws_finds_or_creates Plain.fresh eq_refl) as [A [B _]].
  split; [exact A | exact B].
Defined.

(** X2: the store keeps no history: a write over an earlier write leaves the
    world exactly as the later write alone would have, so writing the same
    snapshot twice is writing it once. *)
Theorem write_single_row_last_wins (r1 r2 : record) (w : world) :
  reachable (store w) = true ->
  snd (write_single_row r2 (snd (write_single_row r1 w))) = snd (write_single_row r2 w).
Proof.
  intros R. rewrite (write_single_row_world r1 w R). simpl.
  rewrite (write_single_row_world r2 (stored w (overwritten (opened_grid w) r1)) R).
  rewrite (write_single_row_world r2 w R). simpl.
  rewrite opened_grid_stored, overwritten_twice, stored_twice. reflexivity.
Qed.

(** X3: [write_single_row] changes the cells of A1:D2 of the configured
    worksheet and nothing else: every cell from row 3 down or from column E
    on keeps its value, the other worksheets are as they were, and so are the
    session and the configuration. *)
Theorem write_single_row_scope (rec : record) (w : world) :
  reachable (store w) = true ->
  current_grid (snd (write_single_row rec w)) = Some (overwritten (opened_grid w) rec) /\
  (forall r c : nat,
     (2 <= r \/ 4 <= c)%nat ->
     cell_at (overwritten (opened_grid w) rec) r c = cell_at (opened_grid w) r c) /\
  (forall other : string,
     other <> sheet_title w ->
     find_sheet other (sheets (store (snd (write_single_row rec w))))
     = find_sheet other (sheets (store w))) /\
  session (snd (write_single_row rec w)) = session w /\
  config (snd (write_single_row rec w)) = config w.
Proof.
  intros R. rewrite (write_single_row_world rec w R). simpl.
  split; [apply current_grid_stored|].
  split; [intros r c; apply cell_at_overwritten|].
  split; [|split; reflexivity].
  intros other N. apply find_put_other. exact N.
Qed.

Section ReadFacts.

Variable format_number : Q -> string.
Variable pad_values : bool.

(** X5: [read_latest] never changes the session or the configuration, and
    it changes the store in one case only: when the worksheet is missing
    it leaves the newly created one behind. *)
Theorem read_latest_effects (w : world) :
  session (snd (read_latest format_number pad_values w)) = session w /\
  config (snd (read_latest format_number pad_values w)) = config w /\
  (snd (read_latest format_number pad_values w) = w \/
   reachable (store w) = true /\ current_grid w = None /\
   snd (read_latest format_number pad_values w) = stored w new_sheet).
Proof.
  destruct (reachable (store w)) eqn:R.
  - destruct (current_grid w) as [g|] eqn:F.
    + rewrite (read_latest_serves format_number pad_values w g (conj R F)). simpl.
      repeat split. left. reflexivity.
    + assert (E : snd (read_latest format_number pad_values w) = stored w new_sheet).
      { unfold read_latest. rewrite (bind_step _ _ _ _ _ (open_ws_world w R)). rewrite F.
        change (sheet_title w) with (sheet_title (stored w new_sheet)).
        rewrite (bind_step _ _ _ _ _
                   (get_values_serves format_number pad_values (stored w new_sheet)
                      new_sheet A1_D2 (serves_stored w new_sheet R))).
        reflexivity. }
      rewrite E. repeat split. right. repeat split.
  - rewrite (read_latest_unreachable format_number pad_values w R). simpl.
    repeat split. left. reflexivity.
Qed.

(** X4: what [read_latest] makes of the values it got.  It raises only
    [ValueError], and exactly when there is a second row of at least four
    columns under a first row of another length; a frame it returns has the
    first row as its labels and the second as its only row, so it is never
    empty. *)
Theorem latest_of_outcomes (data : list (list string)) :
  (latest_of data = Raises ValueError <->
   (2 <= List.length data /\ 4 <= List.length (nth 1 data []) /\
    List.length (nth 0 data []) <> List.length (nth 1 data []))%nat) /\
  (forall e : exn, latest_of data = Raises e -> e = ValueError) /\
  (forall df : DataFrame,
     latest_of data = Returns (Some df) ->
     columns df = nth 0 data [] /\ rows df = [nth 1 data []] /\
     (4 <= List.length (columns df))%nat /\ empty df = false).
Proof.
  unfold latest_of, mk_frame. cbn [forallb]. rewrite andb_true_r.
  destruct (Nat.ltb_spec (List.length data) 2) as [A|A];
    destruct (Nat.ltb_spec (List.length (nth 1 data [])) 4) as [B|B]; cbn [orb];
    try (split; [split; [discriminate | intros [? [? ?]]; lia]
                |split; [intros e E; discriminate E | intros df E; discriminate E]]).
  destruct (Nat.eqb_spec (List.length (nth 1 data [])) (List.length (nth 0 data [])))
    as [E|N].
  - split; [split; [discriminate | intros [_ [_ C]]; lia]|].
    split; [intros e X; discriminate X|].
    intros df X. inversion X; subst df. simpl. repeat split; [lia|].
    unfold empty. simpl. destruct (nth 0 data []) as [|c cs]; [simpl in E; lia | reflexivity].
  - split; [split; [intros _; repeat split; [lia | lia | intros C; apply N; lia] | reflexivity]|].
    split; [intros e X; inversion X; reflexivity | intros df X; discriminate X].
Qed.

End ReadFacts.

Lemma write_single_row_last_wins_witness :
  reachable (store Plain.fresh) = true /\
  snd (write_single_row Plain.sample
         (snd (write_single_row
                 {| timestamp_utc := "earlier"; current_assets := 60000;
                    current_liabilities := 30000; inventory := 20000 |} Plain.fresh)))
  = snd (write_single_row Plain.sample Plain.fresh).
Proof.
  split; [reflexivity|].
  exact (write_single_row_last_wins _ Plain.sample Plain.fresh eq_refl).
Defined.

Lemma write_single_row_scope_witness :
  reachable (store Plain.header_only) = true /\
  cell_at (overwritten (opened_grid Plain.header_only) Plain.sample) 0 4
  = cell_at (opened_grid Plain.header_only) 0 4.
Proof.
  split; [reflexivity|].
  exact (proj1 (proj2 (write_single_row_scope Plain.sample Plain.header_only eq_refl))
               0%nat 4%nat (or_intror (le_n 4))).
Defined.

(** ** The countdown *)

Lemma py_int_ge (x : Q) (n : Z) : (0 < n)%Z -> ((n <= Py.int x)%Z <-> inject_Z n <= x).
Proof.
  intros N. unfold Py.int. destruct (Qle_bool 0 x) eqn:E.
  - split.
    + intros L. apply Qle_trans with (inject_Z (Qfloor x)); [|apply Qfloor_le].
      rewrite <- Zle_Qle. exact L.
    + intros L. rewrite <- (Qfloor_Z n). apply Qfloor_resp_le. exact L.
  - apply Qle_bool_false in E.
    assert (C : (Qceiling x <= 0)%Z).
    { rewrite <- (Qceiling_Z 0). apply Qceiling_resp_le. apply Qlt_le_weak. exact E. }
    split.
    + intros L. exfalso. lia.
    + intros L. exfalso. rewrite Zlt_Qlt in N. change (inject_Z 0) with 0 in N. lra.
Qed.

(** X11: the countdown shows 0 exactly when the gate would be open at the
    same clock reading, and it is never negative. *)
Theorem countdown_zero_iff_due (later last : Q) :
  (remaining_at later last = 0%Z <-> due_at later last = true) /\
  (0 <= remaining_at later last)%Z.
Proof.
  unfold remaining_at, due_at, Py.max_int, INTERVAL_SECONDS.
  pose proof (py_int_ge (fsub later last) 30 ltac:(lia)) as P.
  change (inject_Z 30) with 30 in *.
  destruct (Z.ltb_spec 0 (30 - Py.int (fsub later last))) as [L|L].
  - split; [|lia]. split; [intros E; lia|].
    intros D. apply Qle_bool_iff in D. apply P in D. lia.
  - split; [|lia]. split; [|reflexivity].
    intros _. apply Qle_bool_iff. apply P. lia.
Qed.

(** X10: while the clock has not gone back behind the last generation, the
    countdown stays between 0 and 30, the progress value between 0 and 1, and
    [st.progress] accepts it. *)
Theorem countdown_range (later last : Q) (w : world) :
  last <= later ->
  (0 <= remaining_at later last <= 30)%Z /\
  0 <= progress_of (remaining_at later last) <= 1 /\
  st_progress (progress_of (remaining_at later last)) w = (Returns tt, w).
Proof.
  intros L. destruct (progress_in_range later last L) as [R [P0 P1]].
  split; [exact R|]. split; [split; assumption|].
  unfold st_progress. apply Qle_bool_iff in P0. apply Qle_bool_iff in P1.
  rewrite P0, P1. reflexivity.
Qed.

(** X18: a clock reading a second or more behind the last generation gives a
    countdown above 30 and a negative progress value, which [st.progress]
    refuses. *)
Theorem clock_step_back_raises (later last : Q) (w : world) :
  later - last <= -1 ->
  (30 < remaining_at later last)%Z /\
  progress_of (remaining_at later last) < 0 /\
  st_progress (progress_of (remaining_at later last)) w = (Raises StreamlitAPIException, w).
Proof.
  intros L.
  assert (E : fsub later last <= -1).
  { unfold fsub. apply Qle_trans with (rnd (-1)); [apply rnd_le, L | by_computation]. }
  assert (K : (Py.int (fsub later last) <= -1)%Z).
  { unfold Py.int. destruct (Qle_bool 0 (fsub later last)) eqn:B.
    - apply Qle_bool_iff in B. exfalso. lra.
    - rewrite <- (Qceiling_Z (-1)). apply Qceiling_resp_le. exact E. }
  unfold remaining_at. set (k := Py.int (fsub later last)) in *.
  assert (R : (31 <= Py.max_int 0 (INTERVAL_SECONDS - k))%Z).
  { unfold Py.max_int, INTERVAL_SECONDS. destruct (Z.ltb_spec 0 (30 - k)); lia. }
  set (r := Py.max_int 0 (INTERVAL_SECONDS - k)) in *.
  assert (N : progress_of r < 0).
  { unfold progress_of. change (INTERVAL_SECONDS =? 0)%Z with false. cbv iota.
    change (inject_Z INTERVAL_SECONDS) with 30.
    rewrite Zle_Qle in R. change (inject_Z 31) with 31 in R.
    assert (D : fdiv 31 30 <= fdiv (inject_Z r) 30).
    { unfold fdiv. apply rnd_le. apply Qmult_le_compat_r; [exact R | discriminate]. }
    apply Qle_lt_trans with (fsub 1 (fdiv 31 30)).
    - unfold fsub. apply rnd_le. lra.
    - vm_compute. reflexivity. }
  split; [lia|]. split; [exact N|].
  unfold st_progress.
  assert (B : Qle_bool 0 (progress_of r) = false).
  { destruct (Qle_bool 0 (progress_of r)) eqn:B; [|reflexivity].
    apply Qle_bool_iff in B. exfalso. lra. }
  rewrite B. reflexivity.
Qed.

(** ** The gate on Unix time *)

Lemma float_in_binade (x : Q) (e : Z) :
  is_float x -> pow2 e <= x -> x < pow2 (e + 1) -> (emin <= e - (prec - 1))%Z ->
  exists m : Z, x == inject_Z m * pow2 (e - (prec - 1)).
Proof.
  intros F L U E. unfold is_float in F.
  assert (Hx : 0 < x) by (pose proof (pow2_pos e); lra).
  destruct (rnd_cases x) as [[P _]|[[P _]|[_ R]]]; try (exfalso; lra).
  assert (C : cexp x = (e - (prec - 1))%Z).
  { unfold cexp. rewrite (Qlog2_unique x e L U). lia. }
  exists (round_half_even (x * pow2 (- cexp x))).
  rewrite <- C. rewrite <- F at 1. rewrite R. reflexivity.
Qed.

(** X17: between two clock readings of the years 2004 to 2038 (floats from
    [2^30] to [2^31] seconds) the float subtraction is exact, so the gate is
    open exactly when 30 real seconds or more have passed. *)
Theorem due_exact_on_unix_time (now last : Q) :
  is_float now -> is_float last ->
  pow2 30 <= now < pow2 31 -> pow2 30 <= last < pow2 31 ->
  fsub now last == now - last /\
  (due_at now last = true <-> 30 <= now - last).
Proof.
  intros Fn Fl [Ln Un] [Ll Ul].
  destruct (float_in_binade now 30 Fn Ln Un ltac:(unfold emin, prec; lia)) as [m Hm].
  destruct (float_in_binade last 30 Fl Ll Ul ltac:(unfold emin, prec; lia)) as [k Hk].
  change (30 - (prec - 1))%Z with (-22)%Z in *.
  assert (P : pow2 (-22) == 1 # 4194304) by reflexivity.
  assert (P30 : pow2 30 == 1073741824) by reflexivity.
  assert (P31 : pow2 31 == 2147483648) by reflexivity.
  assert (D : now - last == inject_Z (m - k) * pow2 (-22)).
  { rewrite Hm, Hk. unfold Z.sub. rewrite inject_Z_plus, inject_Z_opp. ring. }
  assert (B : (Z.abs (m - k) <= 2 ^ prec)%Z).
  { assert (Bm : inject_Z m < 2147483648 * 4194304) by (rewrite P in Hm; lra).
    assert (Bm' : 1073741824 * 4194304 <= inject_Z m) by (rewrite P in Hm; lra).
    assert (Bk : inject_Z k < 2147483648 * 4194304) by (rewrite P in Hk; lra).
    assert (Bk' : 1073741824 * 4194304 <= inject_Z k) by (rewrite P in Hk; lra).
    change (2147483648 * 4194304) with (inject_Z 9007199254740992) in Bm, Bk.
    change (1073741824 * 4194304) with (inject_Z 4503599627370496) in Bm', Bk'.
    rewrite <- Zlt_Qlt in Bm, Bk. rewrite <- Zle_Qle in Bm', Bk'.
    unfold prec. lia. }
  assert (E : fsub now last == now - last).
  { unfold fsub. rewrite D. apply (rnd_dyadic (m - k) (-22) B). unfold emin. lia. }
  split; [exact E|].
  unfold due_at. rewrite Qle_bool_iff, E. reflexivity.
Qed.

(** ** Rendering and the rerun as a whole *)

Lemma latest_of_frame (data : list (list string)) (df : DataFrame) :
  latest_of data = Returns (Some df) ->
  columns df = nth 0 data [] /\ rows df = [nth 1 data []] /\
  (4 <= List.length (columns df))%nat /\ empty df = false.
Proof.
  unfold latest_of, mk_frame. cbn [forallb]. rewrite andb_true_r.
  destruct (Nat.ltb_spec (List.length data) 2) as [A|A];
    destruct (Nat.ltb_spec (List.length (nth 1 data [])) 4) as [B|B]; cbn [orb];
    try discriminate.
  destruct (Nat.eqb_spec (List.length (nth 1 data [])) (List.length (nth 0 data [])))
    as [E|N]; [|discriminate].
  intros X. inversion X; subst df. simpl. repeat split; [lia|].
  unfold empty. simpl. destruct (nth 0 data []) as [|c cs]; [simpl in E; lia | reflexivity].
Qed.

Lemma getitem_missing (label : string) (cols vals : list string) :
  ~ In label cols -> getitem label (combine cols vals) = Raises KeyError.
Proof.
  intros N. unfold getitem.
  assert (E : filter (fun p : string * string => String.eqb (fst p) label) (combine cols vals)
              = []).
  { revert vals. induction cols as [|c cols IH]; intros vals; [reflexivity|].
    destruct vals as [|v vals]; [reflexivity|]. simpl.
    destruct (String.eqb_spec c label) as [C|C].
    - exfalso. apply N. left. exact C.
    - apply IH. intros I. apply N. right. exact I. }
  rewrite E. reflexivity.
Qed.

Section RerunFacts.

Variable format_number : Q -> string.
Variable parse_float : string -> option Q.
Variable pad_values : bool.

Context {G : Type} `{Generator G}.

(** X15: the "no data yet" placeholder is shown when [read_latest] returned
    [None] and never for a frame it returned: such a frame is not empty, so
    the block goes on to the metrics (or raises on the way). *)
Theorem placeholder_only_when_absent (data : list (list string)) (df : DataFrame)
    (w : world) :
  latest_of data = Returns (Some df) ->
  fst (show_latest parse_float (Some df) w) <> Returns Info /\
  show_latest parse_float None w = (Returns Info, w).
Proof.
  intros L. destruct (latest_of_frame data df L) as [_ [_ [_ E]]].
  split; [|reflexivity].
  unfold show_latest. rewrite E. cbn [negb]. unfold bind, lift, ret.
  destruct (float_of parse_float (getitem "current_assets" (iloc0 df))); [|discriminate].
  destruct (float_of parse_float (getitem "current_liabilities" (iloc0 df)));
    [|discriminate].
  destruct (float_of parse_float (getitem "inventory" (iloc0 df))); [|discriminate].
  destruct (getitem "timestamp_utc" (iloc0 df)); discriminate.
Qed.

(** X16: a frame that lacks one of the four labels makes the block raise
    and leaves the world as it was.  Lacking the label of an amount it
    raises in the conversions of lines 101 to 103, which come before the
    metrics, with the error of the first conversion that fails: [KeyError]
    when [current_assets], the first label looked up, is the one missing.
    When the three amounts convert, the missing label is [timestamp_utc]
    and the error is the [KeyError] of the caption of line 110, after the
    metrics. *)
Theorem missing_label_raises (label : string) (df : DataFrame) (w : world) :
  empty df = false -> In label HEADER -> ~ In label (columns df) ->
  exists e : exn,
    show_latest parse_float (Some df) w = (Raises e, w) /\
    (label = "current_assets"%string -> e = KeyError) /\
    (label <> "timestamp_utc"%string ->
     amounts_of parse_float (iloc0 df) = Raises e) /\
    (forall a : Q * Q * Q,
        amounts_of parse_float (iloc0 df) = Returns a ->
        label = "timestamp_utc"%string /\ e = KeyError).
Proof.
  intros E I N. unfold show_latest, amounts_of. rewrite E. cbn [negb].
  unfold bind, lift, ret.
  assert (K : getitem label (iloc0 df) = Raises KeyError) by (apply getitem_missing, N).
  destruct (float_of parse_float (getitem "current_assets" (iloc0 df))) as [ca|e1] eqn:E1.
  2: { exists e1. repeat split; try discriminate.
       intros L. subst label. rewrite K in E1. simpl in E1. congruence. }
  destruct (float_of parse_float (getitem "current_liabilities" (iloc0 df)))
    as [cl|e2] eqn:E2.
  2: { exists e2. repeat split; try discriminate.
       intros L. subst label. rewrite K in E1. discriminate E1. }
  destruct (float_of parse_float (getitem "inventory" (iloc0 df))) as [inv|e3] eqn:E3.
  2: { exists e3. repeat split; try discriminate.
       intros L. subst label. rewrite K in E1. discriminate E1. }
  assert (T : label = "timestamp_utc"%string).
  { simpl in I. destruct I as [I|[I|[I|[I|[]]]]]; subst label; [reflexivity| | |];
      rewrite K in *; discriminate. }
  subst label. rewrite K. exists KeyError. repeat split.
  intros C. exfalso. apply C. reflexivity.
Qed.

(** The world a rerun leaves, whichever way it goes. *)
Lemma tick_world (i : inputs G) (w : world) :
  snd (tick format_number parse_float pad_values i w) =
  if manual i || due_at (now i) (last_generate_ts (session w)) then
    if reachable (store w) then
      with_last (stored w (overwritten (opened_grid w)
                             (fst (generate_plausible_values (rng i) (stamp i)))))
                (now i)
    else w
  else snd (read_latest format_number pad_values w).
Proof.
  rewrite tick_eq.
  destruct (manual i || due_at (now i) (last_generate_ts (session w))) eqn:C.
  - destruct (reachable (store w)) eqn:R.
    + set (rec := fst (generate_plausible_values (rng i) (stamp i))).
      pose proof (write_single_row_world rec w R) as E.
      assert (E2 : (write_single_row rec ;;; set_last (now i)) w
                   = (Returns tt, with_last (stored w (overwritten (opened_grid w) rec))
                                            (now i))).
      { rewrite (bind_step _ _ _ _ _ E). reflexivity. }
      rewrite (bind_step _ _ _ _ _ E2).
      apply (snd_bind_pure _ _ _ _
               (read_latest_serves format_number pad_values _ _
                  (serves_with_last _ _ (now i) (serves_stored w _ R)))).
      intros latest. apply pure_render_tail.
    + assert (E : (write_single_row (fst (generate_plausible_values (rng i) (stamp i))) ;;;
                   set_last (now i)) w = (Raises TransportError, w)).
      { apply bind_raises. unfold write_single_row. apply bind_raises.
        apply open_ws_unreachable, R. }
      rewrite (bind_raises _ _ _ _ _ E). reflexivity.
  - assert (E0 : ret tt w = (Returns tt, w)) by reflexivity.
    rewrite (bind_step _ _ _ _ _ E0).
    unfold bind at 1.
    destruct (read_latest format_number pad_values w) as [[l|e] w1]; [|reflexivity].
    apply pure_render_tail.
Qed.

(** X8: a rerun sets the session's timer to [now] when it generated and
    the write went through, and leaves it alone in every other case: no
    trigger, or a service that could not be reached. *)
Theorem timer_step (i : inputs G) (w : world) :
  last_generate_ts (session (snd (tick format_number parse_float pad_values i w))) =
  if (manual i || due_at (now i) (last_generate_ts (session w))) && reachable (store w)
  then now i
  else last_generate_ts (session w).
Proof.
  rewrite tick_world.
  destruct (manual i || due_at (now i) (last_generate_ts (session w)));
    [destruct (reachable (store w)); reflexivity|].
  cbn [andb]. rewrite session_read_latest. reflexivity.
Qed.

(** X12: the first run of the script in a session, at a clock reading of 30
    seconds or more and with the service answering, generates whether the
    button is pressed or not: it leaves the timer at [now] and the
    worksheet with the header and the snapshot drawn in this run.  A run in
    a session under way is a rerun on the session state as it stands. *)
Theorem new_session_generates (i : inputs G) (c : secrets) (s : service) :
  30 <= now i -> reachable s = true ->
  last_generate_ts
    (session (snd (script format_number parse_float pad_values i None c s))) = now i /\
  current_grid (snd (script format_number parse_float pad_values i None c s))
  = Some (overwritten
            (opened_grid {| config := c; session := init_session None; store := s |})
            (fst (generate_plausible_values (rng i) (stamp i)))) /\
  (forall st : session_state,
      script format_number parse_float pad_values i (Some st) c s
      = tick format_number parse_float pad_values i
          {| config := c; session := st; store := s |}).
Proof.
  intros L R. unfold script.
  assert (D : due_at (now i) 0 = true).
  { unfold due_at. apply Qle_bool_iff.
    apply Qle_trans with (rnd 30); [by_computation|].
    unfold fsub. apply rnd_le. lra. }
  rewrite tick_world. cbn [init_session session last_generate_ts store].
  rewrite D, orb_true_r, R.
  split; [reflexivity|]. split; [|reflexivity].
  exact (current_grid_stored _ _).
Qed.

(** X13: the amounts of a snapshot, in figures: the inventory before the cap
    is between the 10% and the 60% of the current assets and the
    liabilities before the floor between the 30% and the 110%, as float
    products; so the inventory lies in [5,000, 150,000] and the current
    liabilities in [15,000, 275,000]. *)
Theorem snapshot_amounts (g : G) (stamp : string) :
  uniform_in_range (lit (10 # 100)) (lit (60 # 100)) ->
  uniform_in_range (lit (30 # 100)) (lit (110 # 100)) ->
  (fmul (lit (10 # 100)) (sampled_ca g) <= uncapped_inv g
     <= fmul (lit (60 # 100)) (sampled_ca g)) /\
  (fmul (lit (30 # 100)) (sampled_ca g) <= unfloored_cl g
     <= fmul (lit (110 # 100)) (sampled_ca g)) /\
  5000 <= inventory (fst (generate_plausible_values g stamp)) <= 150000 /\
  15000 <= current_liabilities (fst (generate_plausible_values g stamp)) <= 275000.
Proof.
  intros U1 U2. rewrite generate_plausible_values_eq. simpl.
  pose proof (sampled_ca_range g) as [C0 C1].
  unfold uncapped_inv, unfloored_cl, sampled_inv_prop, sampled_cl_prop.
  destruct (U1 (snd (lognormal 11 (lit (35 # 100)) g))) as [_ [L1 R1]].
  destruct (U2 (snd (uniform (lit (10 # 100)) (lit (60 # 100))
                       (snd (lognormal 11 (lit (35 # 100)) g))))) as [_ [L2 R2]].
  set (p := fst (uniform (lit (10 # 100)) (lit (60 # 100)) _)) in *.
  set (q := fst (uniform (lit (30 # 100)) (lit (110 # 100)) _)) in *.
  set (ca := sampled_ca g) in *.
  assert (P1 : 0 <= lit (10 # 100)) by by_computation.
  assert (P2 : 0 <= lit (30 # 100)) by by_computation.
  assert (I0 : fmul (lit (10 # 100)) ca <= fmul p ca) by (apply rnd_le; nra).
  assert (I1 : fmul p ca <= fmul (lit (60 # 100)) ca) by (apply rnd_le; nra).
  assert (J0 : fmul (lit (30 # 100)) ca <= fmul q ca) by (apply rnd_le; nra).
  assert (J1 : fmul q ca <= fmul (lit (110 # 100)) ca) by (apply rnd_le; nra).
  assert (A0 : fmul (lit (10 # 100)) 50000 <= fmul (lit (10 # 100)) ca)
    by (apply rnd_le; nra).
  assert (A1 : fmul (lit (60 # 100)) ca <= fmul (lit (60 # 100)) 250000)
    by (apply rnd_le; nra).
  assert (B0 : fmul (lit (30 # 100)) 50000 <= fmul (lit (30 # 100)) ca)
    by (apply rnd_le; nra).
  assert (B1 : fmul (lit (110 # 100)) ca <= fmul (lit (110 # 100)) 250000)
    by (apply rnd_le; nra).
  assert (V0 : fmul (lit (10 # 100)) 50000 == 5000) by (vm_compute; reflexivity).
  assert (V1 : fmul (lit (60 # 100)) 250000 == 150000) by (vm_compute; reflexivity).
  assert (W0 : fmul (lit (30 # 100)) 50000 == 15000) by (vm_compute; reflexivity).
  assert (W1 : fmul (lit (110 # 100)) 250000 == 275000) by (vm_compute; reflexivity).
  assert (R5 : Py.round 5000 2 == 5000) by (vm_compute; reflexivity).
  assert (R150 : Py.round 150000 2 == 150000) by (vm_compute; reflexivity).
  assert (R15 : Py.round 15000 2 == 15000) by (vm_compute; reflexivity).
  assert (R275 : Py.round 275000 2 == 275000) by (vm_compute; reflexivity).
  destruct (py_min_le (fmul p ca) ca) as [M1 _].
  assert (M0 : 5000 <= Py.min (fmul p ca) ca) by (apply py_min_ge; lra).
  destruct (py_max_ge (fmul q ca) 1) as [X0 _].
  assert (X1 : Py.max (fmul q ca) 1 <= 275000).
  { unfold Py.max. destruct (Py.Qltb (fmul q ca) 1); lra. }
  split; [split; assumption|]. split; [split; assumption|].
  split; [split|split].
  - apply Qle_trans with (Py.round 5000 2); [rewrite R5; apply Qle_refl|].
    apply round_le. exact M0.
  - apply Qle_trans with (Py.round 150000 2); [|rewrite R150; apply Qle_refl].
    apply round_le. lra.
  - apply Qle_trans with (Py.round 15000 2); [rewrite R15; apply Qle_refl|].
    apply round_le. lra.
  - apply Qle_trans with (Py.round 275000 2); [|rewrite R275; apply Qle_refl].
    apply round_le. exact X1.
Qed.

End RerunFacts.

(** ** The further properties on the example store *)

Lemma idle_path_witness :
  manual Plain.unpressed = false /\
  due_at (now Plain.unpressed) (last_generate_ts (session Plain.header_only)) = false /\
  session (snd (tick Plain.format_number Plain.parse_float true
                  Plain.unpressed Plain.header_only))
  = session Plain.header_only.
Proof.
  split; [reflexivity|]. split; [vm_compute; reflexivity|].
  exact (proj2 (idle_path Plain.format_number Plain.parse_float true
                  Plain.unpressed Plain.header_only eq_refl
                  ltac:(vm_compute; reflexivity))).
Defined.

Lemma generation_unreachable_witness :
  manual Plain.pressed = true /\
  reachable (store Plain.offline) = false /\
  tick Plain.format_number Plain.parse_float true Plain.pressed Plain.offline
  = (Raises TransportError, Plain.offline).
Proof.
  split; [reflexivity|]. split; [reflexivity|].
  exact (generation_unreachable Plain.format_number Plain.parse_float true
           Plain.pressed Plain.offline (or_introl eq_refl) eq_refl).
Defined.

Lemma lenient_float_reads (x : Q) : Plain.lenient_float (Plain.format_number x) <> None.
Proof. unfold Plain.lenient_float. discriminate. Qed.

Lemma generation_returns_witness :
  manual Plain.pressed = true /\
  reachable (store Plain.header_only) = true /\
  now Plain.pressed <= later Plain.pressed /\
  exists v w',
    tick Plain.format_number Plain.lenient_float true Plain.pressed Plain.header_only
    = (Returns v, w').
Proof.
  split; [reflexivity|]. split; [reflexivity|].
  split; [apply Qle_bool_iff; reflexivity|].
  exact (generation_returns Plain.format_number Plain.lenient_float true
           Plain.pressed Plain.header_only (or_introl eq_refl) eq_refl
           lenient_float_reads ltac:(apply Qle_bool_iff; reflexivity)).
Defined.

Lemma countdown_range_witness :
  1700000000 <= 1700000012 /\
  (0 <= remaining_at 1700000012 1700000000 <= 30)%Z.
Proof.
  split; [apply Qle_bool_iff; reflexivity|].
  exact (proj1 (countdown_range 1700000012 1700000000 Plain.fresh
                  ltac:(apply Qle_bool_iff; reflexivity))).
Defined.

Lemma clock_step_back_raises_witness :
  1699999998 - 1700000000 <= -1 /\
  st_progress (progress_of (remaining_at 1699999998 1700000000)) Plain.fresh
  = (Raises StreamlitAPIException, Plain.fresh).
Proof.
  split; [apply Qle_bool_iff; reflexivity|].
  exact (proj2 (proj2 (clock_step_back_raises 1699999998 1700000000 Plain.fresh
                         ltac:(apply Qle_bool_iff; reflexivity)))).
Defined.

Lemma new_session_generates_witness :
  30 <= now Plain.unpressed /\
  reachable (store Plain.fresh) = true /\
  last_generate_ts
    (session (snd (script Plain.format_number Plain.parse_float true Plain.unpressed None
                     (config Plain.fresh) (store Plain.fresh))))
  = now Plain.unpressed.
Proof.
  split; [apply Qle_bool_iff; reflexivity|]. split; [reflexivity|].
  exact (proj1 (new_session_generates Plain.format_number Plain.parse_float true
                  Plain.unpressed (config Plain.fresh) (store Plain.fresh)
                  ltac:(apply Qle_bool_iff; reflexivity) eq_refl)).
Defined.

Lemma due_exact_on_unix_time_witness :
  is_float 1700000030 /\ is_float (3400000001 # 2) /\
  (pow2 30 <= 1700000030 < pow2 31) /\ (pow2 30 <= 3400000001 # 2 < pow2 31) /\
  fsub 1700000030 (3400000001 # 2) == 1700000030 - (3400000001 # 2).
Proof.
  assert (F1 : is_float 1700000030) by (vm_compute; reflexivity).
  assert (F2 : is_float (3400000001 # 2)) by (vm_compute; reflexivity).
  assert (B1 : pow2 30 <= 1700000030 < pow2 31)
    by (split; vm_compute; reflexivity || discriminate).
  assert (B2 : pow2 30 <= 3400000001 # 2 < pow2 31)
    by (split; vm_compute; reflexivity || discriminate).
  split; [exact F1|]. split; [exact F2|]. split; [exact B1|]. split; [exact B2|].
  exact (proj1 (due_exact_on_unix_time 1700000030 (3400000001 # 2) F1 F2 B1 B2)).
Defined.

Lemma snapshot_amounts_witness :
  uniform_in_range (G := Lcg.t) (lit (10 # 100)) (lit (60 # 100)) /\
  uniform_in_range (G := Lcg.t) (lit (30 # 100)) (lit (110 # 100)) /\
  5000 <= inventory (fst (generate_plausible_values (7%Z : Lcg.t) "t")) <= 150000.
Proof.
  split; [exact lcg_inventory_draws|]. split; [exact lcg_liabilities_draws|].
  exact (proj1 (proj2 (proj2 (snapshot_amounts (7%Z : Lcg.t) "t"
                                lcg_inventory_draws lcg_liabilities_draws)))).
Defined.

Lemma snapshot_round_twice_witness :
  uniform_in_range (G := Lcg.t) (lit (10 # 100)) (lit (60 # 100)) /\
  uniform_in_range (G := Lcg.t) (lit (30 # 100)) (lit (110 # 100)) /\
  Py.round (inventory (fst (generate_plausible_values (7%Z : Lcg.t) "t"))) 2
  == inventory (fst (generate_plausible_values (7%Z : Lcg.t) "t")).
Proof.
  split; [exact lcg_inventory_draws|]. split; [exact lcg_liabilities_draws|].
  exact (proj2 (proj2 (snapshot_round_twice (7%Z : Lcg.t) "t"
                         lcg_inventory_draws lcg_liabilities_draws))).
Defined.

Lemma placeholder_only_when_absent_witness :
  latest_of [HEADER; ["t"; "1.00"; "2.00"; "3.00"]%string]
  = Returns (Some {| columns := HEADER; rows := [["t"; "1.00"; "2.00"; "3.00"]%string] |}) /\
  fst (show_latest Plain.parse_float
         (Some {| columns := HEADER; rows := [["t"; "1.00"; "2.00"; "3.00"]%string] |})
         Plain.fresh) <> Returns Info.
Proof.
  split; [reflexivity|].
  exact (proj1 (placeholder_only_when_absent Plain.parse_float
                  [HEADER; ["t"; "1.00"; "2.00"; "3.00"]%string] _ Plain.fresh eq_refl)).
Defined.

Lemma missing_label_raises_witness :
  exists e : exn,
    show_latest Plain.parse_float
      (Some {| columns := ["when"; "assets"; "liabilities"; "stock"]%string;
               rows := [["t"; "1.00"; "2.00"; "3.00"]%string] |}) Plain.fresh
    = (Raises e, Plain.fresh) /\
    ("current_assets"%string = "current_assets"%string -> e = KeyError).
Proof.
  destruct (missing_label_raises Plain.parse_float "current_assets"
              {| columns := ["when"; "assets"; "liabilities"; "stock"]%string;
                 rows := [["t"; "1.00"; "2.00"; "3.00"]%string] |} Plain.fresh)
    as [e [S [K _]]].
  - reflexivity.
  - right. left. reflexivity.
  - simpl. intros [C|[C|[C|[C|[]]]]]; discriminate C.
  - exists e. split; [exact S | exact K].
Defined.
